(** * Unified price engine and WebSocket fan-out of reckon-ai-indexer

    A shallow embedding of
    - [UnifiedPriceEngine] (services/unified-price-engine.ts):
      [calculateWeightedAverage], [calculateDeviation], [detectArbitrage]
      and [getUnifiedPrice];
    - [WebSocketManager] (websocket/websocket-manager.ts): [handleSubscribe],
      [handleUnsubscribe], [sendMessage] and [broadcastPriceUpdate].

    JavaScript's [number] is an IEEE-754 binary64 value.  The engine is
    written once over the interface [JS.Number] of the operations it uses,
    and the interface has two instances: [float], Rocq's primitive binary64
    numbers, which is what the program runs on, and [Q], the exact
    rationals, which is what the arithmetic means when nothing is rounded.
    Statements proved over the interface hold for both. *)

From Stdlib Require Import ZArith QArith Qabs Qminmax Lia Lqa.
From Stdlib Require Import PrimFloat FloatOps FloatAxioms SpecFloat Uint63.
From Stdlib Require Import Sorting.Sorted Sorting.Permutation.
From stdpp Require Import base option list gmap sets strings.

Set Warnings "-inexact-float".

(** ** Thrown values and results *)

(** What a [throw] carries.  The engine throws three [Error]s of its own;
    anything thrown by a collaborator (the Redis client, [JSON.parse]) is
    [Foreign]. *)
Inductive Error : Type :=
  | NoPriceSources                            (* 'No price sources available' *)
  | InvalidSourceData                         (* 'Invalid source data' *)
  | NoPriceData (symbol chain : string)       (* `No price data available for ${symbol} on ${chain}` *)
  | Foreign (message : string).

(** A computation that returns or throws. *)
Inductive Result (A : Type) : Type :=
  | Ok (value : A)
  | Throw (error : Error).
Arguments Ok {A} value.
Arguments Throw {A} error.

(** ** JavaScript numbers *)

Module JS.

(** The arithmetic the engine performs on [number]s. *)
Class Number (num : Type) : Type := {
  of_Z : Z -> num;                   (* an integer literal, or an array length *)
  lit_0_1 : num;                     (* the literal [0.1] *)
  add : num -> num -> num;
  sub : num -> num -> num;
  mul : num -> num -> num;
  div : num -> num -> num;
  lt : num -> num -> bool;           (* [a < b]; [a > b] is [lt b a] *)
  strict_eq : num -> num -> bool;    (* [a === b] *)
  Math_max : num -> num -> num;
  Math_min : num -> num -> num;
  Math_abs : num -> num
}.

(** [Math.sqrt] and [Math.pow(x, 2)]: only [calculateDeviation] needs them. *)
Class Roots (num : Type) : Type := {
  Math_sqrt : num -> num;
  Math_pow2 : num -> num             (* [Math.pow(x, 2)] *)
}.

End JS.

Declare Scope js_scope.
Delimit Scope js_scope with js.
Notation "x + y" := (JS.add x y) : js_scope.
Notation "x - y" := (JS.sub x y) : js_scope.
Notation "x * y" := (JS.mul x y) : js_scope.
Notation "x / y" := (JS.div x y) : js_scope.
Notation "x <? y" := (JS.lt x y) : js_scope.
Notation "x >? y" := (JS.lt y x) : js_scope.
Notation "x === y" := (JS.strict_eq x y) (at level 70, no associativity) : js_scope.
Notation "'lit' z" := (JS.of_Z z%Z) (at level 1, z at level 0, format "'lit'  z") : js_scope.

(** ** Array.prototype helpers *)

Section ArrayPrototype.
Context {A : Type} {num : Type} `{JS.Number num}.
Local Open Scope js_scope.

(** [xs.sort(comparefn)]: ECMAScript's sort is stable and places [a] after
    [b] when [comparefn(a, b) > 0]; a comparison that is negative, zero or
    NaN leaves the two in their order.  [insert_sorted] places one element
    in front of an already sorted suffix. *)
Fixpoint insert_sorted (comparefn : A -> A -> num) (a : A) (xs : list A) : list A :=
  match xs with
  | [] => [a]
  | b :: rest =>
      if comparefn a b >? lit 0 then b :: insert_sorted comparefn a rest
      else a :: xs
  end.

Definition sort (comparefn : A -> A -> num) (xs : list A) : list A :=
  foldr (insert_sorted comparefn) [] xs.

End ArrayPrototype.

(** ** The engine's pure part *)

Section Engine.
Context {num : Type} `{JS.Number num}.
Local Open Scope js_scope.

(** interface PriceSource *)
Record PriceSource : Type := {
  source : string;
  price : num;
  confidence : num;
  timestamp : num;
  latency : num
}.

(** The object [calculateWeightedAverage] returns. *)
Record WeightedPrice : Type := {
  wp_price : num;
  wp_confidence : num
}.

(** interface ArbitrageOpportunity, as [detectArbitrage] fills it. *)
Record ArbitrageOpportunity : Type := {
  buy_source : string;
  sell_source : string;
  spread_percentage : num;
  profit_potential : num;
  arb_confidence : num
}.

(** [calculateWeightedAverage]; [now] is the value [Date.now()] returns. *)
Definition calculateWeightedAverage (now : num) (sources : list PriceSource)
  : Result WeightedPrice :=
  match sources with
  | [] => Throw NoPriceSources
  | [source0] =>
      (* [if (!source) throw new Error('Invalid source data')] cannot fire:
         [sources[0]] of a one-element array is an object *)
      Ok {| wp_price := price source0; wp_confidence := confidence source0 |}
  | _ =>
      let totalWeight :=
        fold_left (fun sum source =>
          let ageWeight := JS.Math_max lit 0 (lit 1 - (now - timestamp source) / lit 300000) in
          sum + confidence source * ageWeight) sources lit 0 in
      if totalWeight === lit 0 then
        let avgPrice :=
          fold_left (fun sum s => sum + price s) sources lit 0
          / (lit (Z.of_nat (length sources))) in
        let avgConfidence :=
          fold_left (fun sum s => sum + confidence s) sources lit 0
          / (lit (Z.of_nat (length sources))) in
        Ok {| wp_price := avgPrice; wp_confidence := avgConfidence |}
      else
        let weightedPrice :=
          fold_left (fun sum source =>
            let ageWeight := JS.Math_max lit 0 (lit 1 - (now - timestamp source) / lit 300000) in
            let weight := (confidence source * ageWeight) / totalWeight in
            sum + price source * weight) sources lit 0 in
        let avgConfidence :=
          fold_left (fun sum s => sum + confidence s) sources lit 0
          / (lit (Z.of_nat (length sources))) in
        Ok {| wp_price := weightedPrice; wp_confidence := avgConfidence |}
  end.

(** [calculateDeviation] *)
Definition calculateDeviation `{JS.Roots num} (sources : list PriceSource) : num :=
  if Nat.leb (length sources) 1 then lit 0
  else
    let prices := map price sources in
    let avgPrice :=
      fold_left (fun sum price => sum + price) prices lit 0
      / (lit (Z.of_nat (length prices))) in
    let variance :=
      fold_left (fun sum price => sum + JS.Math_pow2 (price - avgPrice)) prices lit 0
      / (lit (Z.of_nat (length prices))) in
    let standardDeviation := JS.Math_sqrt variance in
    (standardDeviation / avgPrice) * lit 100.

(** The body of [detectArbitrage]'s inner loop for one pair of sources:
    the opportunity pushed, if any. *)
Definition priceDiff (sourceI sourceJ : PriceSource) : num :=
  JS.Math_abs (price sourceI - price sourceJ).

Definition spreadPercentage (sourceI sourceJ : PriceSource) : num :=
  let avgPrice := (price sourceI + price sourceJ) / lit 2 in
  (priceDiff sourceI sourceJ / avgPrice) * lit 100.

Definition opportunity (sourceI sourceJ : PriceSource) : ArbitrageOpportunity :=
  {| buy_source :=
       if price sourceI <? price sourceJ then source sourceI else source sourceJ;
     sell_source :=
       if price sourceI <? price sourceJ then source sourceJ else source sourceI;
     spread_percentage := spreadPercentage sourceI sourceJ;
     profit_potential := priceDiff sourceI sourceJ;
     arb_confidence := JS.Math_min (confidence sourceI) (confidence sourceJ) |}.

Definition compare_pair (sources : list PriceSource) (i j : nat)
    (opportunities : list ArbitrageOpportunity) : list ArbitrageOpportunity :=
  match sources !! i, sources !! j with
  | Some sourceI, Some sourceJ =>
      if spreadPercentage sourceI sourceJ >? JS.lit_0_1
      then opportunities ++ [opportunity sourceI sourceJ]      (* push *)
      else opportunities
  | _, _ => opportunities                                       (* continue *)
  end.

(** [detectArbitrage]: [for i in 0..length), for j in i+1..length)], then
    the sort by descending spread. *)
Definition detectArbitrage (sources : list PriceSource) : list ArbitrageOpportunity :=
  let opportunities :=
    fold_left (fun opportunities i =>
      fold_left (fun opportunities j => compare_pair sources i j opportunities)
        (seq (i + 1)%nat (length sources - (i + 1))%nat) opportunities)
      (seq 0 (length sources)) [] in
  sort (fun a b => spread_percentage b - spread_percentage a) opportunities.

End Engine.

Arguments PriceSource num : clear implicits.
Arguments WeightedPrice num : clear implicits.
Arguments ArbitrageOpportunity num : clear implicits.

(** ** The engine's request path: [getUnifiedPrice] *)

(** What [Promise.allSettled] reports of one promise. *)
Inductive PromiseSettledResult (A : Type) : Type :=
  | Fulfilled (value : A)
  | Rejected (reason : Error).
Arguments Fulfilled {A} value.
Arguments Rejected {A} reason.

(** What the engine asks of its collaborators, in the order it asks. *)
Inductive Call : Type :=
  | RedisGet (key : string)
  | RedisSetex (key : string) (ttl : nat) (value : string)
  | RedisSet (key : string) (value : string)
  | ChainlinkGetPrice (network pair : string)
  | PythGetPrice (pair : string)
  | LoggerDebug (message : string)
  | LoggerError (message : string) (error : Error).

(** The state a request runs in: the cache's content and the calls made so
    far. *)
Record EngineState : Type := {
  redis_store : gmap string string;
  calls : list Call
}.

(** A computation that reads and writes the state and returns or throws. *)
Definition Async (A : Type) : Type := EngineState -> Result A * EngineState.

#[export] Instance Async_ret : MRet Async :=
  fun A a st => (Ok a, st).
#[export] Instance Async_bind : MBind Async :=
  fun A B f m st =>
    match m st with
    | (Ok a, st') => f a st'
    | (Throw e, st') => (Throw e, st')
    end.

Definition throw {A : Type} (e : Error) : Async A := fun st => (Throw e, st).

(** [try { body } catch (error) { handler(error) }] *)
Definition try_catch {A : Type} (body : Async A) (handler : Error -> Async A) : Async A :=
  fun st =>
    match body st with
    | (Ok a, st') => (Ok a, st')
    | (Throw e, st') => handler e st'
    end.

Definition call (c : Call) : Async () :=
  fun st => (Ok (), {| redis_store := redis_store st; calls := calls st ++ [c] |}).

(** A value that is returned or thrown, as a step of a computation. *)
Definition lift {A : Type} (r : Result A) : Async A := fun st => (r, st).

(** A string in a condition: the empty string is falsy. *)
Definition truthy (s : string) : bool := negb (String.eqb s "").

Section UnifiedPrice.
Context {num : Type} `{JS.Number num} `{JS.Roots num}.
Local Open Scope js_scope.

(** interface PriceData, as [ChainlinkService.getPrice] fills it. *)
Record PriceData : Type := {
  pd_price : num;
  pd_timestamp : num;
  pd_confidence : num;
  pd_source : string;
  pd_network : string;
  pd_pair : string
}.

(** interface PythPriceData, as [PythService.getPrice] fills it. *)
Record PythPriceData : Type := {
  py_symbol : string;
  py_price : num;
  py_confidence : num;
  py_timestamp : num;
  py_network : string;
  py_source : string;
  py_publishTime : num
}.

Record Metadata : Type := {
  last_updated : num;
  data_freshness : string;
  api_version : string
}.

(** interface UnifiedPriceData, as [getUnifiedPrice] fills it. *)
Record UnifiedPriceData : Type := {
  u_symbol : string;
  u_chain : string;
  u_price : num;
  u_confidence : num;
  u_timestamp : num;
  u_sources : list string;
  u_source_count : nat;
  u_price_deviation : num;
  u_arbitrage_opportunities : list (ArbitrageOpportunity num);
  u_metadata : Metadata
}.

(** The values [Date.now()] returns at its call sites in one request, in
    source order. *)
Record Clock : Type := {
  now_chainlink_latency : num;
  now_pyth_latency : num;
  now_weights : num;            (* in [calculateWeightedAverage] *)
  now_timestamp : num;
  now_last_updated : num;
  now_freshness : num           (* in [calculateFreshness] *)
}.

(** What the world outside the engine answers during one request. *)
Record World : Type := {
  redis_get_error : option string;  (* [Some m]: the Redis read rejects, with message [m] *)
  redis_set_error : option string;  (* [Some m]: the Redis write rejects, with message [m] *)
  chainlink_getPrice : string -> string -> PromiseSettledResult (option PriceData);
  pyth_getPrice : string -> PromiseSettledResult (option PythPriceData);
  CACHE_TTL_PRICE : nat;            (* [parseInt(process.env['CACHE_TTL_PRICE'] || '30', 10)] *)
  clock : Clock
}.

(** [JSON.stringify], [JSON.parse] and [calculateFreshness] (which formats a
    number of seconds as text) are kept abstract. *)
Variable JSON_stringify : UnifiedPriceData -> string.
Variable JSON_parse : string -> Result UnifiedPriceData.
Variable calculateFreshness : num -> list (PriceSource num) -> string.

(** [RedisConnection.get] *)
Definition redis_get (w : World) (key : string) : Async (option string) :=
  call (RedisGet key);;
  match redis_get_error w with
  | Some message => throw (Foreign message)
  | None => fun st => (Ok (redis_store st !! key), st)
  end.

(** [RedisConnection.set]: [setex] when [ttl] is truthy, [set] otherwise. *)
Definition redis_set (w : World) (key value : string) (ttl : nat) : Async () :=
  call (if Nat.eqb ttl 0 then RedisSet key value else RedisSetex key ttl value);;
  match redis_set_error w with
  | Some message => throw (Foreign message)
  | None => fun st =>
      (Ok (), {| redis_store := <[key := value]> (redis_store st); calls := calls st |})
  end.

(** [getChainlinkPrice] and [getPythPrice], each as [Promise.allSettled]
    sees it. *)
Definition getChainlinkPrice (w : World) (chain symbol : string)
  : Async (PromiseSettledResult (option PriceData)) :=
  let pair := symbol +:+ "/USD" in
  call (ChainlinkGetPrice chain pair);;
  mret (chainlink_getPrice w chain pair).

Definition getPythPrice (w : World) (symbol : string)
  : Async (PromiseSettledResult (option PythPriceData)) :=
  let pair := symbol +:+ "/USD" in
  call (PythGetPrice pair);;
  mret (pyth_getPrice w pair).

(** The two objects pushed to [sources]. *)
Definition chainlink_source (w : World) (value : PriceData) : PriceSource num :=
  {| source := "chainlink";
     price := pd_price value;
     confidence := pd_confidence value;
     timestamp := pd_timestamp value;
     latency := now_chainlink_latency (clock w) - pd_timestamp value |}.

Definition pyth_source (w : World) (value : PythPriceData) : PriceSource num :=
  {| source := "pyth";
     price := py_price value;
     confidence := py_confidence value;
     timestamp := py_timestamp value;
     latency := now_pyth_latency (clock w) - py_publishTime value |}.

(** The cache key of a request. *)
Definition cacheKey (symbol chain : string) : string :=
  "unified:" +:+ chain +:+ ":" +:+ symbol.

(** The object [getUnifiedPrice] builds from the sources it gathered and
    their weighted average. *)
Definition unifiedData (w : World) (symbol chain : string)
    (sources : list (PriceSource num)) (weightedPrice : WeightedPrice num)
  : UnifiedPriceData :=
  {| u_symbol := symbol;
     u_chain := chain;
     u_price := wp_price weightedPrice;
     u_confidence := wp_confidence weightedPrice;
     u_timestamp := now_timestamp (clock w);
     u_sources := map source sources;
     u_source_count := length sources;
     u_price_deviation := calculateDeviation sources;
     u_arbitrage_opportunities := detectArbitrage sources;
     u_metadata :=
       {| last_updated := now_last_updated (clock w);
          data_freshness := calculateFreshness (now_freshness (clock w)) sources;
          api_version := "1.0" |} |}.

(** [getUnifiedPrice] after the cache probe found nothing: the fetch from
    all sources, the consensus, and the cache write. *)
Definition fetch_and_unify (w : World) (symbol chain : string) : Async UnifiedPriceData :=
  (* Promise.allSettled([getChainlinkPrice(chain, symbol), getPythPrice(symbol)]) *)
  chainlinkPrice ← getChainlinkPrice w chain symbol;
  pythPrice ← getPythPrice w symbol;
  let sources : list (PriceSource num) := [] in
  let sources :=
    match chainlinkPrice with
    | Fulfilled (Some value) => sources ++ [chainlink_source w value]
    | _ => sources
    end in
  let sources :=
    match pythPrice with
    | Fulfilled (Some value) => sources ++ [pyth_source w value]
    | _ => sources
    end in
  if Nat.eqb (length sources) 0 then throw (NoPriceData symbol chain)
  else
    weightedPrice ← lift (calculateWeightedAverage (now_weights (clock w)) sources);
    let unifiedData := unifiedData w symbol chain sources weightedPrice in
    redis_set w (cacheKey symbol chain) (JSON_stringify unifiedData) (CACHE_TTL_PRICE w);;
    call (LoggerDebug ("Unified price calculated for " +:+ chain +:+ ":" +:+ symbol));;
    mret unifiedData.

(** [getUnifiedPrice] *)
Definition getUnifiedPrice (w : World) (symbol chain : string) : Async UnifiedPriceData :=
  try_catch
    (cached ← redis_get w (cacheKey symbol chain);
     match cached with
     | Some text =>
         if truthy text then
           call (LoggerDebug ("Cache hit for " +:+ chain +:+ ":" +:+ symbol));;
           lift (JSON_parse text)
         else fetch_and_unify w symbol chain
     | None => fetch_and_unify w symbol chain
     end)
    (fun error =>
       call (LoggerError
               ("Failed to get unified price for " +:+ symbol +:+ " on " +:+ chain +:+ ":")
               error);;
       throw error).

End UnifiedPrice.

(** ** The WebSocket manager *)

(** [ws.readyState] *)
Inductive ReadyState : Type := CONNECTING | OPEN | CLOSING | CLOSED.

#[export] Instance ReadyState_eq_dec : EqDecision ReadyState.
Proof. solve_decision. Defined.

(** A connection is known by its identity, as the keys of a JavaScript
    [Map] of objects are. *)
Abbreviation WebSocket := nat (only parsing).

(** [this.subscriptions : Map<WebSocket, Set<string>>].  The order in which
    [forEach] visits the connections is not modelled. *)
Abbreviation Subscriptions := (gmap WebSocket (gset string)) (only parsing).

Section WebSocketManager.
(** [PriceUpdate] is what a [price_update] carries ([priceData: any]; the
    engine's [UnifiedPriceData] in [handleSubscribe]); [Time] is what
    [Date.now()] returns. *)
Context {PriceUpdate Time : Type}.

Inductive MessageType : Type :=
  | subscribe | unsubscribe | price_update | heartbeat | error.

Inductive Payload : Type :=
  | SubscriptionPayload (status symbol chain subscription_key : string)
  | PricePayload (priceData : PriceUpdate)
  | ErrorPayload (error : string) (timestamp : Time).

(** A message the server sends. *)
Record WebSocketMessage : Type := {
  type : MessageType;
  payload : Payload;
  msg_timestamp : Time;
  request_id : option string
}.

(** A subscribe or unsubscribe request as parsed from the client:
    [message.payload || {}] read at [symbol] and [chain], and
    [message.request_id]; a field that is absent is [None]. *)
Record ClientRequest : Type := {
  req_symbol : option string;
  req_chain : option string;
  req_id : option string
}.

(** What a handler does to the outside, in order. *)
Inductive Effect : Type :=
  | WsSend (ws : WebSocket) (message : WebSocketMessage)    (* ws.send(JSON.stringify(message)) *)
  | LogError (message : string) (error : Error)
  | LogDebug (message : string).

(** The moment a piece of synchronous code runs at: the sockets' states
    and the clock. *)
Record Moment : Type := {
  readyState : WebSocket -> ReadyState;
  now : Time
}.

(** [`${chain}:${symbol}`] *)
Definition subscriptionKey (chain symbol : string) : string :=
  chain +:+ ":" +:+ symbol.

(** A field in a condition: absent and the empty string are falsy. *)
Definition truthy_field (field : option string) : option string :=
  match field with
  | Some text => if truthy text then Some text else None
  | None => None
  end.

(** [sendMessage] *)
Definition sendMessage (t : Moment) (ws : WebSocket) (message : WebSocketMessage)
  : list Effect :=
  if bool_decide (readyState t ws = OPEN) then [WsSend ws message] else [].

(** [sendError] *)
Definition sendError (t : Moment) (ws : WebSocket) (errorMessage : string) : list Effect :=
  sendMessage t ws
    {| type := error;
       payload := ErrorPayload errorMessage (now t);
       msg_timestamp := now t;
       request_id := None |}.

(** The confirmation both handlers send. *)
Definition confirmation (kind : MessageType) (status symbol chain : string)
    (t : Moment) (request : ClientRequest) : WebSocketMessage :=
  {| type := kind;
     payload := SubscriptionPayload status symbol chain (subscriptionKey chain symbol);
     msg_timestamp := now t;
     request_id := truthy_field (req_id request) |}.

(** The message [handleSubscribe] and [broadcastPriceUpdate] send. *)
Definition price_update_message (t : Moment) (priceData : PriceUpdate) : WebSocketMessage :=
  {| type := price_update;
     payload := PricePayload priceData;
     msg_timestamp := now t;
     request_id := None |}.

(** What the ['connection'] and ['close'] handlers do to the registry:
    [this.subscriptions.set(ws, new Set())] and
    [this.subscriptions.delete(ws)]. *)
Definition on_connection (subscriptions : Subscriptions) (ws : WebSocket) : Subscriptions :=
  <[ws := ∅]> subscriptions.

Definition on_close (subscriptions : Subscriptions) (ws : WebSocket) : Subscriptions :=
  delete ws subscriptions.

(** [handleSubscribe].  [t] is the moment the request is handled at, [t']
    the moment the awaited [getUnifiedPrice] settles at; [getUnifiedPrice]
    is the engine's answer, returned or thrown. *)
Definition handleSubscribe (t t' : Moment)
    (getUnifiedPrice : string -> string -> Result PriceUpdate)
    (subscriptions : Subscriptions) (ws : WebSocket) (message : ClientRequest)
  : Subscriptions * list Effect :=
  match truthy_field (req_symbol message), truthy_field (req_chain message) with
  | Some symbol, Some chain =>
      let key := subscriptionKey chain symbol in
      match subscriptions !! ws with
      | Some clientSubscriptions =>
          (<[ws := clientSubscriptions ∪ {[key]}]> subscriptions,
           sendMessage t ws (confirmation subscribe "subscribed" symbol chain t message)
           ++ match getUnifiedPrice symbol chain with
              | Ok priceData => sendMessage t' ws (price_update_message t' priceData)
              | Throw e => [LogError ("Failed to get initial price for " +:+ key +:+ ":") e]
              end
           ++ [LogDebug ("Client subscribed to " +:+ key)])
      | None => (subscriptions, [])
      end
  | _, _ =>
      (subscriptions, sendError t ws "Symbol and chain are required for subscription")
  end.

(** [handleUnsubscribe] *)
Definition handleUnsubscribe (t : Moment)
    (subscriptions : Subscriptions) (ws : WebSocket) (message : ClientRequest)
  : Subscriptions * list Effect :=
  match truthy_field (req_symbol message), truthy_field (req_chain message) with
  | Some symbol, Some chain =>
      let key := subscriptionKey chain symbol in
      match subscriptions !! ws with
      | Some clientSubscriptions =>
          (<[ws := clientSubscriptions ∖ {[key]}]> subscriptions,
           sendMessage t ws (confirmation unsubscribe "unsubscribed" symbol chain t message)
           ++ [LogDebug ("Client unsubscribed from " +:+ key)])
      | None => (subscriptions, [])
      end
  | _, _ =>
      (subscriptions, sendError t ws "Symbol and chain are required for unsubscription")
  end.

(** [broadcastPriceUpdate] *)
Definition broadcastPriceUpdate (t : Moment) (subscriptions : Subscriptions)
    (symbol chain : string) (priceData : PriceUpdate) : list Effect :=
  let key := subscriptionKey chain symbol in
  flat_map (fun entry : WebSocket * gset string =>
      let (ws, clientSubscriptions) := entry in
      if bool_decide (key ∈ clientSubscriptions) && bool_decide (readyState t ws = OPEN)
      then sendMessage t ws (price_update_message t priceData)
      else [])
    (map_to_list subscriptions).

(** The messages a list of effects delivers to one connection. *)
Definition delivered_to (ws : WebSocket) (effects : list Effect) : list WebSocketMessage :=
  flat_map (fun e =>
      match e with
      | WsSend ws' message => if bool_decide (ws' = ws) then [message] else []
      | _ => []
      end) effects.

End WebSocketManager.

Arguments WebSocketMessage : clear implicits.
Arguments Effect : clear implicits.
Arguments Moment : clear implicits.

(** ** The two instances of the number interface *)

(** *** binary64, as the program runs *)

Module Binary64.

(** An integer as a double: exact for the literals of the source and for
    every array length below 2^53. *)
Definition of_Z (z : Z) : float :=
  match z with
  | Z0 => 0%float
  | Zpos _ => PrimFloat.of_uint63 (Uint63.of_Z z)
  | Zneg p => PrimFloat.opp (PrimFloat.of_uint63 (Uint63.of_Z (Zpos p)))
  end.

(** [Math.max] and [Math.min] of two arguments: NaN when either is NaN, and
    -0 is below +0. *)
Definition max (a b : float) : float :=
  if PrimFloat.is_nan a || PrimFloat.is_nan b then PrimFloat.nan
  else if PrimFloat.ltb a b then b
  else if PrimFloat.ltb b a then a
  else if PrimFloat.get_sign a then b else a.

Definition min (a b : float) : float :=
  if PrimFloat.is_nan a || PrimFloat.is_nan b then PrimFloat.nan
  else if PrimFloat.ltb a b then a
  else if PrimFloat.ltb b a then b
  else if PrimFloat.get_sign a then a else b.

#[export] Instance number : JS.Number float := {|
  JS.of_Z := of_Z;
  JS.lit_0_1 := 0.1%float;
  JS.add := PrimFloat.add;
  JS.sub := PrimFloat.sub;
  JS.mul := PrimFloat.mul;
  JS.div := PrimFloat.div;
  JS.lt := PrimFloat.ltb;
  JS.strict_eq := PrimFloat.eqb;
  JS.Math_max := max;
  JS.Math_min := min;
  JS.Math_abs := PrimFloat.abs
|}.

(** [Math.sqrt] is the correctly rounded square root; [Math.pow(x, 2)] is
    [x * x] (the [y == 2] case of the fdlibm [pow] that V8 ships). *)
#[export] Instance roots : JS.Roots float := {|
  JS.Math_sqrt := PrimFloat.sqrt;
  JS.Math_pow2 := fun x => PrimFloat.mul x x
|}.

(** [|x - y| < 0.005]: [x] is [y] to two decimals. *)
Definition approx (x y : float) : bool :=
  PrimFloat.ltb (PrimFloat.abs (PrimFloat.sub x y)) 0.005%float.

End Binary64.

(** *** exact rationals *)

Module Exact.

#[export] Instance number : JS.Number Q := {|
  JS.of_Z := inject_Z;
  JS.lit_0_1 := Qmake 1 10;
  JS.add := Qplus;
  JS.sub := Qminus;
  JS.mul := Qmult;
  JS.div := Qdiv;
  JS.lt := fun a b => negb (Qle_bool b a);
  JS.strict_eq := Qeq_bool;
  JS.Math_max := Qmax;
  JS.Math_min := Qmin;
  JS.Math_abs := Qabs
|}.

End Exact.

(** ** What the specification calls things *)

Section Vocabulary.
Context {num : Type} `{JS.Number num}.
Local Open Scope js_scope.

(** [recencyWeight = max(0, 1 - age/window)], [age = now - observedAt],
    [window] = 5 minutes in milliseconds. *)
Definition window : num := (lit (5 * 60 * 1000)).

Definition recencyWeight (now observedAt : num) : num :=
  JS.Math_max lit 0 (lit 1 - (now - observedAt) / window).

(** The weight of an observation: [confidence * recencyWeight]. *)
Definition weight (now : num) (o : PriceSource num) : num :=
  confidence o * recencyWeight now (timestamp o).

(** The sum of a list, added up from 0 in list order. *)
Definition total (xs : list num) : num := fold_left JS.add xs lit 0.

(** The unweighted arithmetic mean. *)
Definition arithmetic_mean (xs : list num) : num :=
  total xs / (lit (Z.of_nat (length xs))).

(** The mean of [value] over [os] with the weights [w] normalized by their
    sum: the sum of [value o * (w o / W)], [W] the sum of all [w o]. *)
Definition weighted_mean (w value : PriceSource num -> num) (os : list (PriceSource num)) : num :=
  total (map (fun o => value o * (w o / total (map w os))) os).

(** The population standard deviation: the root of the mean squared
    distance to the mean. *)
Definition population_stddev `{JS.Roots num} (xs : list num) : num :=
  JS.Math_sqrt
    (total (map (fun x => JS.Math_pow2 (x - arithmetic_mean xs)) xs)
     / (lit (Z.of_nat (length xs)))).

(** All unordered pairs of a list, each once, the earlier element first. *)
Fixpoint unordered_pairs {A : Type} (xs : list A) : list (A * A) :=
  match xs with
  | [] => []
  | x :: rest => map (pair x) rest ++ unordered_pairs rest
  end.

(** The spread of a pair of prices, in percent of their average. *)
Definition spreadPct (p q : num) : num :=
  (JS.Math_abs (p - q) / ((p + q) / lit 2)) * lit 100.

(** The default threshold, 0.1 percent. *)
Definition thresholdPct : num := JS.lit_0_1.



(** A pair of observations whose spread is strictly above the threshold. *)
Definition exceeds (a b : PriceSource num) : bool :=
  spreadPct (price a) (price b) >? thresholdPct.

(** What the detector is to emit, before any reordering: one opportunity
    for each unordered pair whose spread exceeds the threshold. *)
Definition emitted (os : list (PriceSource num)) : list (ArbitrageOpportunity num) :=
  map (fun p => opportunity p.1 p.2)
      (List.filter (fun p => exceeds p.1 p.2) (unordered_pairs os)).

(** Descending by spread: no opportunity is followed by one of a strictly
    larger spread. *)
Definition not_below (o1 o2 : ArbitrageOpportunity num) : Prop :=
  (spread_percentage o1 <? spread_percentage o2) = false.

End Vocabulary.

(** ** Theorems on the pure part, for every instance of the interface *)

Section EngineFacts.
Context {num : Type} `{JS.Number num}.
Local Open Scope js_scope.

(** A [reduce] that adds [f] of each element is the sum of the mapped list. *)
Lemma reduce_add_map {A : Type} (f : A -> num) (xs : list A) (init : num) :
  fold_left (fun sum x => sum + f x) xs init = fold_left JS.add (map f xs) init.
Proof.
  revert init. induction xs as [|x xs IH]; intros init; simpl.
  - reflexivity.
  - apply IH.
Qed.

Lemma window_literal : window = lit 300000.
Proof. reflexivity. Qed.

(** The result for a list of at least two observations, in the
    specification's vocabulary. *)
Lemma weighted_average_of_many
    (now : num) (o1 o2 : PriceSource num) (rest : list (PriceSource num)) :
  let sources := o1 :: o2 :: rest in
  calculateWeightedAverage now sources =
    Ok {| wp_price :=
            if total (map (weight now) sources) === lit 0
            then arithmetic_mean (map price sources)
            else weighted_mean (weight now) price sources;
          wp_confidence := arithmetic_mean (map confidence sources) |}.
Proof.
  intros sources. subst sources.
  unfold weighted_mean, arithmetic_mean, total.
  rewrite !length_map, <- !reduce_add_map.
  unfold calculateWeightedAverage, weight, recencyWeight, window.
  change (5 * 60 * 1000)%Z with 300000%Z.
  cbv beta zeta.
  match goal with
  | |- context [JS.strict_eq ?w _] => destruct (JS.strict_eq w (lit 0))
  end; reflexivity.
Qed.

(** C1. With two or more observations [calculateWeightedAverage] returns,
    as price, the mean of the prices weighted by
    [confidence * max(0, 1 - age/window)] with the weights normalized by
    their sum, or the unweighted arithmetic mean of the prices when that
    sum [=== 0]; and, as confidence, the unweighted arithmetic mean of the
    confidences in both cases. *)
Theorem calculateWeightedAverage_weighted_mean
    (now : num) (sources : list (PriceSource num)) :
  2 <= length sources ->
  calculateWeightedAverage now sources =
    Ok {| wp_price :=
            if total (map (weight now) sources) === lit 0
            then arithmetic_mean (map price sources)
            else weighted_mean (weight now) price sources;
          wp_confidence := arithmetic_mean (map confidence sources) |}.
Proof.
  intros Hlen.
  destruct sources as [|o1 [|o2 rest]]; simpl in Hlen; try lia.
  apply weighted_average_of_many.
Qed.

(** C2. A single observation passes through: price and confidence are the
    observation's own, and the deviation is 0. *)
Theorem single_observation_passes_through
    `{JS.Roots num} (now : num) (o : PriceSource num) :
  calculateWeightedAverage now [o] =
    Ok {| wp_price := price o; wp_confidence := confidence o |}
  /\ calculateDeviation [o] = lit 0.
Proof. split; reflexivity. Qed.

(** C4. [calculateDeviation] is 0 below two observations and otherwise the
    population standard deviation of the prices over their arithmetic
    mean, times 100. *)
Theorem calculateDeviation_stddev_over_mean
    `{JS.Roots num} (sources : list (PriceSource num)) :
  calculateDeviation sources =
    if Nat.ltb (length sources) 2 then lit 0
    else (population_stddev (map price sources)
          / arithmetic_mean (map price sources)) * lit 100.
Proof.
  unfold calculateDeviation, population_stddev, arithmetic_mean, total.
  destruct (Nat.leb_spec (length sources) 1) as [Hle|Hgt];
    destruct (Nat.ltb_spec (length sources) 2) as [Hlt|Hge];
    try lia; try reflexivity.
  rewrite <- (reduce_add_map (fun x => JS.Math_pow2 (x - _))).
  rewrite length_map.
  reflexivity.
Qed.

End EngineFacts.

(** ** The arbitrage loops and the sort, for every instance *)

Section ArbitrageFacts.
Context {num : Type} `{JS.Number num}.
Local Open Scope js_scope.

Lemma emitted_cons (o : PriceSource num) (os : list (PriceSource num)) :
  emitted (o :: os) =
    map (opportunity o) (List.filter (exceeds o) os) ++ emitted os.
Proof.
  unfold emitted. simpl.
  rewrite List.filter_app, map_app. f_equal.
  induction os as [|b os IH]; simpl; [reflexivity|].
  destruct (exceeds o b); simpl; rewrite IH; reflexivity.
Qed.

(** The inner loop, started at index [s], pushes the opportunities of
    [sources[i]] against every later source from [s] on, in index order. *)
Lemma inner_loop (sources : list (PriceSource num)) (i : nat) (a : PriceSource num) :
  sources !! i = Some a ->
  forall m s opportunities, (s + m)%nat = length sources ->
    fold_left (fun opportunities j => compare_pair sources i j opportunities)
      (seq s m) opportunities
    = opportunities ++ map (opportunity a) (List.filter (exceeds a) (drop s sources)).
Proof.
  intros Hi. induction m as [|m IH]; intros s acc Hlen; simpl.
  - rewrite drop_ge by lia. simpl. rewrite app_nil_r. reflexivity.
  - destruct (lookup_lt_is_Some_2 sources s) as [b Hb]; [lia|].
    rewrite (drop_S _ _ _ Hb). simpl.
    rewrite IH by lia.
    unfold compare_pair. rewrite Hi, Hb.
    change (spreadPercentage a b >? JS.lit_0_1) with (exceeds a b).
    destruct (exceeds a b); simpl.
    + rewrite <- app_assoc. reflexivity.
    + reflexivity.
Qed.

(** The outer loop, started at index [k], pushes what is to be emitted for
    the sources from [k] on. *)
Lemma outer_loop (sources : list (PriceSource num)) :
  forall m k opportunities, (k + m)%nat = length sources ->
    fold_left (fun opportunities i =>
      fold_left (fun opportunities j => compare_pair sources i j opportunities)
        (seq (i + 1)%nat (length sources - (i + 1))%nat) opportunities)
      (seq k m) opportunities
    = opportunities ++ emitted (drop k sources).
Proof.
  induction m as [|m IH]; intros k acc Hlen; simpl.
  - rewrite drop_ge by lia. rewrite app_nil_r. reflexivity.
  - destruct (lookup_lt_is_Some_2 sources k) as [a Ha]; [lia|].
    rewrite (inner_loop sources k a Ha) by lia.
    rewrite IH by lia.
    rewrite (drop_S _ _ _ Ha), emitted_cons.
    replace (k + 1)%nat with (S k) by lia.
    rewrite <- app_assoc. reflexivity.
Qed.

(** [detectArbitrage] sorts exactly what is to be emitted. *)
Lemma detectArbitrage_sorts_emitted (sources : list (PriceSource num)) :
  detectArbitrage sources =
    sort (fun a b => spread_percentage b - spread_percentage a) (emitted sources).
Proof.
  unfold detectArbitrage.
  rewrite (outer_loop sources (length sources) 0 []) by lia.
  reflexivity.
Qed.

Lemma insert_sorted_Permutation {A : Type} (comparefn : A -> A -> num) a xs :
  insert_sorted comparefn a xs ≡ₚ a :: xs.
Proof.
  induction xs as [|b xs IH]; simpl; [reflexivity|].
  destruct (comparefn a b >? lit 0); [|reflexivity].
  rewrite IH. apply Permutation_swap.
Qed.

(** The sort only reorders. *)
Lemma sort_Permutation {A : Type} (comparefn : A -> A -> num) (xs : list A) :
  sort comparefn xs ≡ₚ xs.
Proof.
  induction xs as [|a xs IH]; simpl; [reflexivity|].
  rewrite insert_sorted_Permutation, IH. reflexivity.
Qed.

End ArbitrageFacts.

(** ** What the detector needs of [<] and [-] *)

(** Three facts about the order of numbers: the sign of a difference agrees
    with [<], and two prices whose spread is above the threshold are
    strictly ordered one way or the other. *)
Class SpreadOrder (num : Type) `{JS.Number num} : Prop := {
  lt_difference_positive (x y : num) :
    JS.lt x y = true -> JS.lt (lit 0)%js (JS.sub y x) = true;
  difference_positive_not_gt (x y : num) :
    JS.lt (lit 0)%js (JS.sub y x) = true -> JS.lt y x = false;
  spread_strictly_ordered (p q : num) :
    JS.lt thresholdPct (spreadPct p q) = true ->
    JS.lt p q = false -> JS.lt q p = true
}.

Section ArbitrageOrdered.
Context {num : Type} `{SpreadOrder num}.
Local Open Scope js_scope.

Lemma insert_sorted_descending
    (o : ArbitrageOpportunity num) (os : list (ArbitrageOpportunity num)) :
  Sorted not_below os ->
  Sorted not_below
    (insert_sorted (fun a b => spread_percentage b - spread_percentage a) o os).
Proof.
  induction 1 as [|b rest Hrest IH Hhd]; simpl.
  - repeat constructor.
  - destruct (spread_percentage b - spread_percentage o >? lit 0) eqn:Hcmp.
    + constructor; [exact IH|].
      destruct rest as [|c rest']; simpl.
      * constructor. apply difference_positive_not_gt, Hcmp.
      * destruct (spread_percentage c - spread_percentage o >? lit 0).
        -- constructor. inversion Hhd; assumption.
        -- constructor. apply difference_positive_not_gt, Hcmp.
    + constructor; [constructor; assumption|].
      constructor. unfold not_below.
      destruct (spread_percentage o <? spread_percentage b) eqn:Hlt; [|reflexivity].
      apply lt_difference_positive in Hlt. congruence.
Qed.

Lemma sort_descending (os : list (ArbitrageOpportunity num)) :
  Sorted not_below
    (sort (fun a b => spread_percentage b - spread_percentage a) os).
Proof.
  induction os as [|o os IH]; simpl.
  - constructor.
  - apply insert_sorted_descending, IH.
Qed.

(** C6. [detectArbitrage] returns, in some order, one opportunity for each
    unordered pair of sources whose spread
    [|p_i - p_j| / avg(p_i, p_j) * 100] is strictly above 0.1, and nothing
    else; the list is in descending order of spread; and the opportunity of
    a pair names the strictly lower-priced source as buyer and the higher
    as seller, with the spread, the absolute price difference as profit and
    the smaller confidence. *)
Theorem detectArbitrage_pairs_sorted (sources : list (PriceSource num)) :
  detectArbitrage sources ≡ₚ
    map (fun p => opportunity p.1 p.2)
      (List.filter (fun p => spreadPct (price p.1) (price p.2) >? thresholdPct)
         (unordered_pairs sources))
  /\ Sorted not_below (detectArbitrage sources)
  /\ forall a b : PriceSource num,
       (spreadPct (price a) (price b) >? thresholdPct) = true ->
       (exists lo hi,
           (lo = a /\ hi = b \/ lo = b /\ hi = a)
           /\ (price lo <? price hi) = true
           /\ buy_source (opportunity a b) = source lo
           /\ sell_source (opportunity a b) = source hi)
       /\ spread_percentage (opportunity a b) = spreadPct (price a) (price b)
       /\ profit_potential (opportunity a b) = JS.Math_abs (price a - price b)
       /\ arb_confidence (opportunity a b)
          = JS.Math_min (confidence a) (confidence b).
Proof.
  rewrite detectArbitrage_sorts_emitted. split; [|split].
  - apply sort_Permutation.
  - apply sort_descending.
  - intros a b Hspread. split; [|repeat split].
    unfold opportunity; simpl.
    destruct (price a <? price b) eqn:Hlt.
    + exists a, b. auto.
    + exists b, a. repeat split; auto.
      apply spread_strictly_ordered; assumption.
Qed.

End ArbitrageOrdered.

(** ** Theorems on the request path *)

Ltac run_async :=
  cbv [mbind Async_bind mret Async_ret call throw lift try_catch];
  cbn -[calculateWeightedAverage calculateDeviation detectArbitrage].

Section UnifiedPriceFacts.
Context {num : Type} `{JS.Number num} `{JS.Roots num}.
Variable JSON_stringify : UnifiedPriceData (num := num) -> string.
Variable JSON_parse : string -> Result (UnifiedPriceData (num := num)).
Variable calculateFreshness : num -> list (PriceSource num) -> string.

(** An adapter's answer that [getUnifiedPrice] can use: fulfilled, and not
    with [null]. *)
Definition usable {A : Type} (r : PromiseSettledResult (option A)) : bool :=
  match r with
  | Fulfilled (Some _) => true
  | _ => false
  end.

(** The observations of the adapters that answered usably, Chainlink's
    first: each carries the adapter's name and the price, confidence and
    timestamp the adapter reported. *)
Definition observations (w : World) (symbol chain : string) : list (PriceSource num) :=
  match chainlink_getPrice w chain (symbol +:+ "/USD") with
  | Fulfilled (Some value) =>
      [ {| source := "chainlink";
           price := pd_price value;
           confidence := pd_confidence value;
           timestamp := pd_timestamp value;
           latency := JS.sub (now_chainlink_latency (clock w)) (pd_timestamp value) |} ]
  | _ => []
  end
  ++ match pyth_getPrice w (symbol +:+ "/USD") with
     | Fulfilled (Some value) =>
         [ {| source := "pyth";
              price := py_price value;
              confidence := py_confidence value;
              timestamp := py_timestamp value;
              latency := JS.sub (now_pyth_latency (clock w)) (py_publishTime value) |} ]
     | _ => []
     end.

(** The cache holds nothing usable under the request's key. *)
Definition cache_miss (st : EngineState) (symbol chain : string) : Prop :=
  match redis_store st !! cacheKey symbol chain with
  | Some text => truthy text = false
  | None => True
  end.


(** The call [RedisConnection.set] makes. *)
Definition redis_write (key value : string) (ttl : nat) : Call :=
  if Nat.eqb ttl 0 then RedisSet key value else RedisSetex key ttl value.

Definition failure_message (symbol chain : string) : string :=
  "Failed to get unified price for " +:+ symbol +:+ " on " +:+ chain +:+ ":".

Definition with_calls (st : EngineState) (cs : list Call) : EngineState :=
  {| redis_store := redis_store st; calls := calls st ++ cs |}.



(** A non-empty list of sources always has a weighted average. *)
Lemma calculateWeightedAverage_returns (now : num) (sources : list (PriceSource num)) :
  sources <> [] -> exists weightedPrice, calculateWeightedAverage now sources = Ok weightedPrice.
Proof.
  intros Hne. destruct sources as [|o1 [|o2 rest]]; [congruence|eexists; reflexivity|].
  unfold calculateWeightedAverage.
  destruct (JS.strict_eq _ _); eexists; reflexivity.
Qed.

(** What the fetch does when no adapter answers usably: it throws, having
    called the two adapters and nothing else. *)
Lemma fetch_and_unify_no_source (w : World) (symbol chain : string) (st : EngineState) :
  observations w symbol chain = [] ->
  fetch_and_unify JSON_stringify calculateFreshness w symbol chain st =
    (Throw (NoPriceData symbol chain),
     with_calls st [ChainlinkGetPrice chain (symbol +:+ "/USD");
                    PythGetPrice (symbol +:+ "/USD")]).
Proof.
  unfold observations, fetch_and_unify, getChainlinkPrice, getPythPrice, with_calls.
  intros Hobs.
  destruct (chainlink_getPrice w chain _) as [[?|]|?] eqn:Hc;
    destruct (pyth_getPrice w _) as [[?|]|?] eqn:Hp; try discriminate Hobs;
    rewrite ?Hc, ?Hp; run_async; rewrite <- ?app_assoc; reflexivity.
Qed.

(** What the fetch does when some adapter answers usably. *)
Lemma fetch_and_unify_sources (w : World) (symbol chain : string) (st : EngineState)
    (weightedPrice : WeightedPrice num) :
  let sources := observations w symbol chain in
  let unified := unifiedData calculateFreshness w symbol chain sources weightedPrice in
  let key := cacheKey symbol chain in
  let adapter_calls := [ChainlinkGetPrice chain (symbol +:+ "/USD");
                        PythGetPrice (symbol +:+ "/USD");
                        redis_write key (JSON_stringify unified) (CACHE_TTL_PRICE w)] in
  sources <> [] ->
  calculateWeightedAverage (now_weights (clock w)) sources = Ok weightedPrice ->
  fetch_and_unify JSON_stringify calculateFreshness w symbol chain st =
    match redis_set_error w with
    | Some message => (Throw (Foreign message), with_calls st adapter_calls)
    | None =>
        (Ok unified,
         {| redis_store := <[key := JSON_stringify unified]> (redis_store st);
            calls := calls st ++ adapter_calls
                     ++ [LoggerDebug ("Unified price calculated for " +:+ chain +:+ ":" +:+ symbol)] |})
    end.
Proof.
  intros sources unified key adapter_calls Hne Hwp.
  subst sources unified key adapter_calls.
  unfold fetch_and_unify, getChainlinkPrice, getPythPrice, with_calls,
    redis_set, redis_write.
  unfold observations in *.
  destruct (chainlink_getPrice w chain _) as [[?|]|?] eqn:Hc;
    destruct (pyth_getPrice w _) as [[?|]|?] eqn:Hp; try (exfalso; apply Hne; reflexivity);
    cbn -[calculateWeightedAverage] in Hwp; rewrite ?Hc, ?Hp; run_async;
    unfold chainlink_source, pyth_source; rewrite Hwp;
    destruct (redis_set_error w); cbn;
    rewrite <- ?app_assoc; reflexivity.
Qed.

Local Abbreviation getUnifiedPrice' := (getUnifiedPrice JSON_stringify JSON_parse calculateFreshness).

(** After a probe that found nothing, the request is the fetch, with the
    [catch] block around it. *)
Lemma getUnifiedPrice_after_miss (w : World) (symbol chain : string) (st : EngineState) :
  redis_get_error w = None -> cache_miss st symbol chain ->
  getUnifiedPrice' w symbol chain st =
    try_catch (fetch_and_unify JSON_stringify calculateFreshness w symbol chain)
      (fun e => call (LoggerError (failure_message symbol chain) e);; throw e)
      (with_calls st [RedisGet (cacheKey symbol chain)]).
Proof.
  unfold cache_miss, getUnifiedPrice, redis_get, with_calls. intros Hget Hmiss.
  rewrite Hget.
  cbv [mbind Async_bind mret Async_ret call throw lift try_catch]. cbn.
  destruct (redis_store st !! cacheKey symbol chain) as [text|]; [rewrite Hmiss|];
    reflexivity.
Qed.


(** C8, as the code has it. A failing cache operation fails the request:
    when the probe rejects, [getUnifiedPrice] logs and rethrows its error
    without calling any adapter; when the probe found nothing, some adapter
    answered usably and the write rejects, the error of the write is
    rethrown and the consensus is neither returned nor stored. *)
Theorem getUnifiedPrice_cache_error_rethrown
    (w : World) (symbol chain : string) (st : EngineState) (message : string) :
  (redis_get_error w = Some message ->
     getUnifiedPrice' w symbol chain st =
       (Throw (Foreign message),
        with_calls st [RedisGet (cacheKey symbol chain);
                       LoggerError (failure_message symbol chain) (Foreign message)]))
  /\ (redis_get_error w = None -> cache_miss st symbol chain ->
       observations w symbol chain <> [] ->
       redis_set_error w = Some message ->
       (getUnifiedPrice' w symbol chain st).1 = Throw (Foreign message)
       /\ redis_store (getUnifiedPrice' w symbol chain st).2 = redis_store st).
Proof.
  split.
  - intros Hget. unfold getUnifiedPrice, redis_get, with_calls. rewrite Hget.
    cbv [mbind Async_bind mret Async_ret call throw lift try_catch]. cbn.
    rewrite <- app_assoc. reflexivity.
  - intros Hget Hmiss Hsome Hset.
    rewrite (getUnifiedPrice_after_miss w symbol chain st Hget Hmiss).
    destruct (calculateWeightedAverage_returns (now_weights (clock w)) _ Hsome)
      as [weightedPrice Hwp].
    unfold try_catch.
    rewrite (fetch_and_unify_sources w symbol chain _ weightedPrice Hsome Hwp), Hset.
    cbv [mbind Async_bind call throw]. cbn. split; reflexivity.
Qed.

End UnifiedPriceFacts.

(** ** Theorems on the WebSocket manager *)

Section WebSocketFacts.
Context {PriceUpdate Time : Type}.
Implicit Types (t : Moment Time) (subscriptions : Subscriptions) (ws : WebSocket).

(** A connection holds a subscription to a key. *)
Definition subscribed (subscriptions : Subscriptions) (ws : WebSocket) (key : string) : bool :=
  match subscriptions !! ws with
  | Some clientSubscriptions => bool_decide (key ∈ clientSubscriptions)
  | None => false
  end.

Definition is_open (t : Moment Time) (ws : WebSocket) : bool :=
  bool_decide (readyState t ws = OPEN).

Lemma delivered_to_app ws (e1 e2 : list (Effect PriceUpdate Time)) :
  delivered_to ws (e1 ++ e2) = delivered_to ws e1 ++ delivered_to ws e2.
Proof. unfold delivered_to. apply flat_map_app. Qed.

Lemma delivered_to_sendMessage t ws ws' (message : WebSocketMessage PriceUpdate Time) :
  delivered_to ws (sendMessage t ws' message) =
    if bool_decide (ws' = ws) && is_open t ws then [message] else [].
Proof.
  unfold sendMessage, is_open.
  destruct (bool_decide_reflect (ws' = ws)) as [->|Hne]; simpl.
  - destruct (bool_decide (readyState t ws = OPEN)); simpl; [|reflexivity].
    rewrite bool_decide_eq_true_2 by reflexivity. reflexivity.
  - destruct (bool_decide (readyState t ws' = OPEN)); simpl; [|reflexivity].
    rewrite bool_decide_eq_false_2 by assumption. reflexivity.
Qed.

(** One pass over the entries of the map delivers to [ws] according to the
    one entry [ws] has. *)
Lemma delivered_to_entries t ws (key : string) (message : WebSocketMessage PriceUpdate Time)
    (entries : list (WebSocket * gset string)) :
  NoDup entries.*1 ->
  delivered_to ws
    (flat_map (fun entry : WebSocket * gset string =>
        let (ws', clientSubscriptions) := entry in
        if bool_decide (key ∈ clientSubscriptions) && bool_decide (readyState t ws' = OPEN)
        then sendMessage t ws' message else []) entries)
  = if subscribed (list_to_map entries) ws key && is_open t ws then [message] else [].
Proof.
  unfold subscribed.
  induction entries as [|[ws' cs] entries IH]; intros Hnodup.
  - reflexivity.
  - rewrite fmap_cons in Hnodup. apply NoDup_cons in Hnodup as [Hfresh Hnodup].
    cbn [flat_map]. rewrite delivered_to_app, (IH Hnodup), list_to_map_cons.
    destruct (decide (ws' = ws)) as [->|Hne].
    + rewrite lookup_insert_eq.
      rewrite (not_elem_of_list_to_map_1 _ _ Hfresh). simpl. rewrite app_nil_r.
      destruct (bool_decide (key ∈ cs)); simpl; [|reflexivity].
      fold (is_open t ws).
      destruct (is_open t ws) eqn:Hopen; simpl; [|reflexivity].
      rewrite delivered_to_sendMessage, Hopen.
      rewrite bool_decide_eq_true_2 by reflexivity. reflexivity.
    + rewrite lookup_insert_ne by assumption.
      destruct (_ && bool_decide (readyState t ws' = OPEN)); simpl; [|reflexivity].
      rewrite delivered_to_sendMessage.
      rewrite bool_decide_eq_false_2 by assumption. reflexivity.
Qed.

(** What a broadcast delivers to any one connection: the update, once, when
    the connection is subscribed to the key and its socket is open, and
    nothing otherwise, whatever the other connections are. *)
Lemma broadcast_delivery t subscriptions (symbol chain : string)
    (priceData : PriceUpdate) ws :
  delivered_to ws (broadcastPriceUpdate t subscriptions symbol chain priceData)
  = if subscribed subscriptions ws (subscriptionKey chain symbol) && is_open t ws
    then [price_update_message t priceData] else [].
Proof.
  unfold broadcastPriceUpdate.
  rewrite delivered_to_entries by apply NoDup_fst_map_to_list.
  rewrite list_to_map_to_list. reflexivity.
Qed.

(** A broadcast sends on open sockets only. *)
Lemma broadcast_only_open t subscriptions (symbol chain : string)
    (priceData : PriceUpdate) ws (message : WebSocketMessage PriceUpdate Time) :
  WsSend ws message ∈ broadcastPriceUpdate t subscriptions symbol chain priceData ->
  readyState t ws = OPEN.
Proof.
  unfold broadcastPriceUpdate. intros Hin.
  apply list_elem_of_In, in_flat_map in Hin as ([ws' cs] & _ & Hin).
  destruct (_ && _); [|inversion Hin].
  unfold sendMessage in Hin.
  destruct (bool_decide_reflect (readyState t ws' = OPEN)) as [Hopen|]; [|inversion Hin].
  destruct Hin as [Heq|[]]. congruence.
Qed.

(** Every message a broadcast sends is the update. *)
Lemma broadcast_sends_update t subscriptions (symbol chain : string)
    (priceData : PriceUpdate) ws (message : WebSocketMessage PriceUpdate Time) :
  WsSend ws message ∈ broadcastPriceUpdate t subscriptions symbol chain priceData ->
  message = price_update_message t priceData.
Proof.
  unfold broadcastPriceUpdate. intros Hin.
  apply list_elem_of_In, in_flat_map in Hin as ([ws' cs] & _ & Hin).
  destruct (_ && _); [|inversion Hin].
  unfold sendMessage in Hin.
  destruct (bool_decide (readyState t ws' = OPEN)); [|inversion Hin].
  destruct Hin as [Heq|[]]. congruence.
Qed.

(** A string is truthy exactly when it is not empty. *)
Lemma truthy_iff (text : string) : text <> "" <-> truthy text = true.
Proof.
  unfold truthy. destruct (String.eqb_spec text ""); simpl; split; congruence.
Qed.


(** A well-formed request for a symbol on a chain. *)
Definition request (symbol chain : string) (id : option string) : ClientRequest :=
  {| req_symbol := Some symbol; req_chain := Some chain; req_id := id |}.

Lemma truthy_field_Some (text : string) :
  truthy text = true -> truthy_field (Some text) = Some text.
Proof. intros Htext. simpl. rewrite Htext. reflexivity. Qed.

(** The registry after a subscribe request of a registered connection. *)
Lemma handleSubscribe_registry t t' (engine : string -> string -> Result PriceUpdate)
    subscriptions ws (symbol chain : string) id (clientSubscriptions : gset string) :
  truthy symbol = true -> truthy chain = true ->
  subscriptions !! ws = Some clientSubscriptions ->
  (handleSubscribe (Time := Time) t t' engine subscriptions ws (request symbol chain id)).1
  = <[ws := clientSubscriptions ∪ {[subscriptionKey chain symbol]}]> subscriptions.
Proof.
  intros Hs Hc Hws. unfold handleSubscribe, request. cbn [req_symbol req_chain].
  rewrite !truthy_field_Some, Hws by assumption. reflexivity.
Qed.

(** The registry after an unsubscribe request of a registered connection. *)
Lemma handleUnsubscribe_registry t subscriptions ws (symbol chain : string) id
    (clientSubscriptions : gset string) :
  truthy symbol = true -> truthy chain = true ->
  subscriptions !! ws = Some clientSubscriptions ->
  (handleUnsubscribe (PriceUpdate := PriceUpdate) t subscriptions ws
     (request symbol chain id)).1
  = <[ws := clientSubscriptions ∖ {[subscriptionKey chain symbol]}]> subscriptions.
Proof.
  intros Hs Hc Hws. unfold handleUnsubscribe, request. cbn [req_symbol req_chain].
  rewrite !truthy_field_Some, Hws by assumption. reflexivity.
Qed.

(** C9. Let A subscribe to a key and B to a different key (B holding no
    subscription to A's key).  A broadcast for A's key then delivers
    exactly one message to A if A's socket is open, whatever the state of
    B's socket, and nothing to B; the message has type [price_update],
    carries the broadcast price as its payload and the time of the
    broadcast as its timestamp, and has no request id.  After A
    unsubscribes, a broadcast for the key delivers nothing to A.  A
    broadcast sends on open sockets only, and what it delivers to a
    connection depends on that connection's own subscription and socket
    alone. *)
Theorem broadcast_reaches_subscribers_only
    (tA tA' tB tB' tU t1 t2 : Moment Time)
    (engine : string -> string -> Result PriceUpdate)
    (subscriptions : Subscriptions) (A B : WebSocket)
    (symbolA chainA symbolB chainB : string) (idA idB idU : option string)
    (subscriptionsA subscriptionsB : gset string) (priceData : PriceUpdate) :
  let keyA := chainA +:+ ":" +:+ symbolA in
  let keyB := chainB +:+ ":" +:+ symbolB in
  A <> B -> keyB <> keyA ->
  symbolA <> "" -> chainA <> "" -> symbolB <> "" -> chainB <> "" ->
  subscriptions !! A = Some subscriptionsA ->
  subscriptions !! B = Some subscriptionsB ->
  keyA ∉ subscriptionsB ->
  let after_A :=
    (handleSubscribe tA tA' engine subscriptions A (request symbolA chainA idA)).1 in
  let after_B :=
    (handleSubscribe tB tB' engine after_A B (request symbolB chainB idB)).1 in
  let after_unsubscribe :=
    (handleUnsubscribe (PriceUpdate := PriceUpdate) tU after_B A
       (request symbolA chainA idU)).1 in
  let update (t : Moment Time) : WebSocketMessage PriceUpdate Time :=
    {| type := price_update;
       payload := PricePayload priceData;
       msg_timestamp := now t;
       request_id := None |} in
  (readyState t1 A = OPEN ->
     delivered_to A (broadcastPriceUpdate t1 after_B symbolA chainA priceData)
     = [update t1])
  /\ delivered_to B (broadcastPriceUpdate t1 after_B symbolA chainA priceData) = []
  /\ delivered_to A (broadcastPriceUpdate t2 after_unsubscribe symbolA chainA priceData) = []
  /\ (forall ws message,
        WsSend ws message ∈ broadcastPriceUpdate t1 after_B symbolA chainA priceData ->
        readyState t1 ws = OPEN /\ message = update t1)
  /\ (forall ws,
        delivered_to ws (broadcastPriceUpdate t1 after_B symbolA chainA priceData)
        = if subscribed after_B ws keyA && is_open t1 ws
          then [update t1] else []).
Proof.
  intros keyA keyB HAB Hkeys HsA HcA HsB HcB HA HB HnotB
    after_A after_B after_unsubscribe update.
  apply truthy_iff in HsA, HcA, HsB, HcB.
  change keyA with (subscriptionKey chainA symbolA) in *.
  change keyB with (subscriptionKey chainB symbolB) in *.
  assert (EA : after_A = <[A := subscriptionsA ∪ {[subscriptionKey chainA symbolA]}]>
                           subscriptions).
  { apply handleSubscribe_registry; assumption. }
  assert (EB : after_B = <[B := subscriptionsB ∪ {[subscriptionKey chainB symbolB]}]>
                           after_A).
  { apply handleSubscribe_registry; try assumption.
    rewrite EA, lookup_insert_ne by assumption. exact HB. }
  assert (HA2 : after_B !! A = Some (subscriptionsA ∪ {[subscriptionKey chainA symbolA]})).
  { rewrite EB, lookup_insert_ne by congruence. rewrite EA. apply lookup_insert_eq. }
  assert (HB2 : after_B !! B = Some (subscriptionsB ∪ {[subscriptionKey chainB symbolB]})).
  { rewrite EB. apply lookup_insert_eq. }
  assert (EU : after_unsubscribe
               = <[A := (subscriptionsA ∪ {[subscriptionKey chainA symbolA]})
                        ∖ {[subscriptionKey chainA symbolA]}]> after_B).
  { apply handleUnsubscribe_registry; assumption. }
  repeat split.
  - intros Hopen. rewrite broadcast_delivery. unfold subscribed, is_open.
    rewrite HA2, Hopen.
    rewrite !bool_decide_eq_true_2; [reflexivity|reflexivity|].
    apply elem_of_union_r, elem_of_singleton. reflexivity.
  - rewrite broadcast_delivery. unfold subscribed. rewrite HB2.
    rewrite bool_decide_eq_false_2; [reflexivity|].
    intros [Hin|Hin]%elem_of_union; [contradiction|].
    apply elem_of_singleton in Hin. congruence.
  - rewrite broadcast_delivery. unfold subscribed.
    rewrite EU, lookup_insert_eq.
    rewrite bool_decide_eq_false_2; [reflexivity|].
    intros [_ Hout]%elem_of_difference. apply Hout, elem_of_singleton. reflexivity.
  - eapply broadcast_only_open. eassumption.
  - eapply broadcast_sends_update. eassumption.
  - intros ws. apply broadcast_delivery.
Qed.

(** C10. A subscribe request naming a symbol and a chain, from a
    registered connection, records the subscription and then delivers, in
    this order, the confirmation and the unified price the engine returns
    for that symbol and chain (each if the socket is open at that moment).
    The confirmation has type [subscribe], says "subscribed" of the symbol,
    the chain and the key, and echoes the request id if there is one; the
    price goes out as a [price_update] whose payload is the engine's
    result.  When the engine throws instead, nothing is delivered after
    the confirmation, the error is logged, and the subscription stays
    recorded all the same. *)
Theorem handleSubscribe_sends_initial_price
    (t t' : Moment Time) (engine : string -> string -> Result PriceUpdate)
    (subscriptions : Subscriptions) (ws : WebSocket) (symbol chain : string)
    (id : option string) (clientSubscriptions : gset string) :
  symbol <> "" -> chain <> "" ->
  subscriptions !! ws = Some clientSubscriptions ->
  let key := chain +:+ ":" +:+ symbol in
  let outcome := handleSubscribe t t' engine subscriptions ws (request symbol chain id) in
  let confirm : WebSocketMessage PriceUpdate Time :=
    {| type := subscribe;
       payload := SubscriptionPayload "subscribed" symbol chain key;
       msg_timestamp := now t;
       request_id := match id with
                     | Some text => if String.eqb text "" then None else Some text
                     | None => None
                     end |} in
  let update (priceData : PriceUpdate) : WebSocketMessage PriceUpdate Time :=
    {| type := price_update;
       payload := PricePayload priceData;
       msg_timestamp := now t';
       request_id := None |} in
  subscribed outcome.1 ws key = true
  /\ (forall other, other <> ws -> outcome.1 !! other = subscriptions !! other)
  /\ match engine symbol chain with
     | Ok priceData =>
         outcome.2 =
           (if is_open t ws then [WsSend ws confirm] else [])
           ++ (if is_open t' ws then [WsSend ws (update priceData)] else [])
           ++ [LogDebug ("Client subscribed to " +:+ key)]
         /\ delivered_to ws outcome.2 =
              (if is_open t ws then [confirm] else [])
              ++ (if is_open t' ws then [update priceData] else [])
     | Throw e =>
         outcome.2 =
           (if is_open t ws then [WsSend ws confirm] else [])
           ++ [LogError ("Failed to get initial price for " +:+ key +:+ ":") e;
               LogDebug ("Client subscribed to " +:+ key)]
         /\ delivered_to ws outcome.2 = (if is_open t ws then [confirm] else [])
     end.
Proof.
  intros Hs Hc Hws key outcome confirm update.
  apply truthy_iff in Hs, Hc.
  assert (Hconfirm : confirm
                     = confirmation subscribe "subscribed" symbol chain t
                         (request symbol chain id)).
  { subst confirm. unfold confirmation, request, truthy_field, truthy.
    cbn [req_id]. destruct id as [text|]; [|reflexivity].
    destruct (String.eqb text ""); reflexivity. }
  change key with (subscriptionKey chain symbol) in *.
  split; [|split].
  - subst outcome. unfold subscribed.
    rewrite (handleSubscribe_registry t t' engine subscriptions ws symbol chain id
               clientSubscriptions Hs Hc Hws).
    rewrite lookup_insert_eq. apply bool_decide_eq_true_2.
    apply elem_of_union_r, elem_of_singleton. reflexivity.
  - intros other Hother. subst outcome.
    rewrite (handleSubscribe_registry t t' engine subscriptions ws symbol chain id
               clientSubscriptions Hs Hc Hws).
    apply lookup_insert_ne. congruence.
  - subst outcome. unfold handleSubscribe.
    change (req_symbol (request symbol chain id)) with (Some symbol).
    change (req_chain (request symbol chain id)) with (Some chain).
    rewrite !truthy_field_Some, Hws by assumption. cbn [snd].
    rewrite <- Hconfirm. unfold sendMessage, is_open.
    destruct (engine symbol chain) as [priceData|e]; split; try reflexivity.
    + destruct (bool_decide (readyState t ws = OPEN)),
               (bool_decide (readyState t' ws = OPEN));
        cbn; rewrite ?bool_decide_eq_true_2 by reflexivity; reflexivity.
    + destruct (bool_decide (readyState t ws = OPEN));
        cbn; rewrite ?bool_decide_eq_true_2 by reflexivity; reflexivity.
Qed.

End WebSocketFacts.

(** ** Exact arithmetic *)

Module ExactFacts.
Import Exact.
Local Open Scope Q_scope.

Lemma lt_iff (a b : Q) : JS.lt a b = true <-> a < b.
Proof.
  simpl. rewrite negb_true_iff. split.
  - intros Hb. apply Qnot_le_lt. intros Hle.
    apply Qle_bool_iff in Hle. congruence.
  - intros Hlt. destruct (Qle_bool b a) eqn:Hb; [|reflexivity].
    apply Qle_bool_iff in Hb. lra.
Qed.

Lemma not_lt_iff (a b : Q) : JS.lt a b = false <-> b <= a.
Proof.
  simpl. rewrite negb_false_iff. apply Qle_bool_iff.
Qed.

Lemma spreadPct_equal_prices (p q : Q) : p == q -> spreadPct p q == 0.
Proof.
  intros Heq.
  change (Qabs (p - q) / ((p + q) / inject_Z 2) * inject_Z 100 == 0).
  assert (Hz : p - q == 0) by lra.
  rewrite Hz. change (Qabs 0) with 0.
  unfold Qdiv. rewrite !Qmult_0_l. reflexivity.
Qed.

#[export] Instance spread_order : SpreadOrder Q.
Proof.
  split.
  - intros x y Hlt. apply lt_iff in Hlt. apply lt_iff.
    change (0 < y - x). lra.
  - intros x y Hpos. apply lt_iff in Hpos. apply not_lt_iff.
    change (0 < y - x) in Hpos. lra.
  - intros p q Hspread Hnlt.
    apply lt_iff in Hspread. apply not_lt_iff in Hnlt. apply lt_iff.
    destruct (Qlt_le_dec q p) as [Hlt|Hle]; [exact Hlt|exfalso].
    assert (Heq : p == q) by lra.
    apply spreadPct_equal_prices in Heq.
    unfold thresholdPct in Hspread. simpl in Hspread.
    rewrite Heq in Hspread. revert Hspread. compute. congruence.
Qed.

Ltac exact_ops :=
  cbn [JS.add JS.sub JS.mul JS.div JS.of_Z JS.lit_0_1 JS.Math_max JS.Math_min
       JS.Math_abs Exact.number] in *.

Lemma total_from (xs : list Q) (a : Q) :
  fold_left Qplus xs a == a + fold_left Qplus xs 0.
Proof.
  revert a. induction xs as [|x xs IH]; intros a; simpl.
  - lra.
  - rewrite IH, (IH (0 + x)). lra.
Qed.

Lemma total_cons (x : Q) (xs : list Q) : total (x :: xs) == x + total xs.
Proof.
  unfold total. exact_ops. simpl fold_left.
  rewrite total_from. change (inject_Z 0) with 0. lra.
Qed.

Lemma total_map_le {A : Type} (f g : A -> Q) (xs : list A) :
  (forall x, x ∈ xs -> f x <= g x) -> total (map f xs) <= total (map g xs).
Proof.
  induction xs as [|x xs IH]; intros Hle; simpl map.
  - apply Qle_refl.
  - rewrite !total_cons.
    apply Qplus_le_compat.
    + apply Hle. left.
    + apply IH. intros y Hy. apply Hle. right. exact Hy.
Qed.

Lemma total_map_scale {A : Type} (f : A -> Q) (c : Q) (xs : list A) :
  total (map (fun x => f x * c) xs) == total (map f xs) * c.
Proof.
  induction xs as [|x xs IH]; simpl map.
  - change (0 == 0 * c). lra.
  - rewrite !total_cons, IH. lra.
Qed.







Lemma total_map_ext {A : Type} (f g : A -> Q) (xs : list A) :
  (forall x, x ∈ xs -> f x == g x) -> total (map f xs) == total (map g xs).
Proof.
  intros Heq. apply Qle_antisym; apply total_map_le; intros x Hx;
    rewrite (Heq x Hx); apply Qle_refl.
Qed.

(** With exact arithmetic the normalized form is the textbook weighted
    mean: the sum of [value * weight] over the sum of the weights. *)
Lemma weighted_mean_quotient (w value : PriceSource Q -> Q) (os : list (PriceSource Q)) :
  ~ total (map w os) == 0 ->
  weighted_mean w value os
  == total (map (fun o => value o * w o) os) / total (map w os).
Proof.
  intros HW. unfold weighted_mean. exact_ops.
  set (W := total (map w os)) in *.
  unfold Qdiv at 2. rewrite <- total_map_scale.
  apply total_map_ext. intros o _. field. exact HW.
Qed.


End ExactFacts.

(** ** The order of binary64 numbers

    [<] and [-] on [float] are specified by the Standard Library's
    [SpecFloat] model of IEEE 754 ([ltb_spec], [sub_spec], ...); the three
    order facts the arbitrage detector needs are proved from it. *)

Module Binary64Order.
Import SpecFloat Binary64.
Local Open Scope Z_scope.

(** *** Mantissas *)

Lemma digits2_pos_bounds (m : positive) :
  2 ^ (Zpos (digits2_pos m) - 1) <= Zpos m < 2 ^ Zpos (digits2_pos m).
Proof.
  induction m as [m IH|m IH|]; simpl digits2_pos.
  - rewrite Pos2Z.inj_succ.
    replace (Z.succ (Zpos (digits2_pos m)) - 1) with (Z.succ (Zpos (digits2_pos m) - 1)) by lia.
    rewrite !Z.pow_succ_r by lia. lia.
  - rewrite Pos2Z.inj_succ.
    replace (Z.succ (Zpos (digits2_pos m)) - 1) with (Z.succ (Zpos (digits2_pos m) - 1)) by lia.
    rewrite !Z.pow_succ_r by lia. lia.
  - simpl. lia.
Qed.

Lemma iter_xO (m d : positive) : Zpos (Pos.iter xO m d) = Zpos m * 2 ^ Zpos d.
Proof.
  induction d as [|d IH] using Pos.peano_ind.
  - simpl. lia.
  - rewrite Pos.iter_succ, Pos2Z.inj_succ, Z.pow_succ_r by lia.
    rewrite Pos2Z.inj_xO, IH. lia.
Qed.

(** *** Shifting right *)

Lemma shr_1_m (mrs : shr_record) :
  0 <= shr_m mrs -> shr_m (shr_1 mrs) = shr_m mrs / 2.
Proof.
  destruct mrs as [m r s]. cbn [shr_m]. intros Hm.
  rewrite <- Z.div2_div.
  destruct m as [|[p|p|]|p]; try reflexivity. lia.
Qed.

Lemma pow2_xO (n : positive) : 2 ^ Zpos n~0 = 2 ^ Zpos n * 2 ^ Zpos n.
Proof.
  replace (Zpos n~0) with (Zpos n + Zpos n) by lia.
  apply Z.pow_add_r; lia.
Qed.

Lemma pow2_xI (n : positive) : 2 ^ Zpos n~1 = 2 * (2 ^ Zpos n * 2 ^ Zpos n).
Proof.
  replace (Zpos n~1) with (Z.succ (Zpos n + Zpos n)) by lia.
  rewrite Z.pow_succ_r, Z.pow_add_r by lia. reflexivity.
Qed.

Lemma iter_pos_shr_1_m (n : positive) (mrs : shr_record) :
  0 <= shr_m mrs -> shr_m (iter_pos shr_1 n mrs) = shr_m mrs / 2 ^ Zpos n.
Proof.
  revert mrs. induction n as [n IH|n IH|]; intros mrs Hm; simpl iter_pos.
  - assert (H1 : 0 <= shr_m (shr_1 mrs)).
    { rewrite shr_1_m by assumption. apply Z.div_pos; lia. }
    assert (H2 : 0 <= shr_m (iter_pos shr_1 n (shr_1 mrs))).
    { rewrite IH by assumption. apply Z.div_pos; lia. }
    rewrite IH, IH, shr_1_m by assumption.
    rewrite !Z.div_div by lia. rewrite pow2_xI. reflexivity.
  - assert (H1 : 0 <= shr_m (iter_pos shr_1 n mrs)).
    { rewrite IH by assumption. apply Z.div_pos; lia. }
    rewrite IH, IH by assumption.
    rewrite Z.div_div by lia. rewrite pow2_xO. reflexivity.
  - rewrite shr_1_m by assumption. reflexivity.
Qed.


Lemma shr_record_of_loc_m (m : Z) (l : location) : shr_m (shr_record_of_loc m l) = m.
Proof. destruct l as [|[]]; reflexivity. Qed.

(** Shifting to the format's exponent keeps a positive mantissa positive,
    provided the exponent is not below the least one. *)
Lemma shr_fexp_positive (m e : Z) (l : location) :
  0 < m -> emin prec emax <= e ->
  0 < shr_m (fst (shr_fexp prec emax m e l))
  /\ emin prec emax <= snd (shr_fexp prec emax m e l).
Proof.
  intros Hm He. unfold shr_fexp, shr.
  destruct m as [|p|p]; try lia. cbn [Zdigits2].
  pose proof (digits2_pos_bounds p) as [Hlow _].
  set (d := Zpos (digits2_pos p)) in *.
  destruct (fexp prec emax (d + e) - e) as [|k|k] eqn:Hn; cbn [fst snd];
    rewrite ?shr_record_of_loc_m; try lia.
  unfold fexp in Hn.
  assert (Hk : Zpos k = d - prec) by lia.
  split; [|lia].
  rewrite iter_pos_shr_1_m by (rewrite shr_record_of_loc_m; lia).
  rewrite shr_record_of_loc_m.
  apply Z.div_str_pos. split; [apply Z.pow_pos_nonneg; lia|].
  apply Z.le_trans with (2 ^ (d - 1)); [|exact Hlow].
  apply Z.pow_le_mono_r; [lia|]. unfold prec in Hk. lia.
Qed.

Lemma round_nearest_even_positive (m : Z) (l : location) :
  0 < m -> 0 < round_nearest_even m l.
Proof.
  intros Hm. destruct l as [|[]]; simpl; try lia.
  destruct (Z.even m); lia.
Qed.

(** Rounding a positive mantissa at an exponent of the format gives a
    number above zero. *)
Lemma binary_round_aux_positive (m e : Z) (l : location) :
  0 < m -> emin prec emax <= e ->
  SFltb (S754_zero false) (binary_round_aux prec emax false m e l) = true.
Proof.
  intros Hm He. unfold binary_round_aux.
  pose proof (shr_fexp_positive m e l Hm He) as [Hm1 He1].
  destruct (shr_fexp prec emax m e l) as [mrs1 e1]. cbn [fst snd] in *.
  pose proof (shr_fexp_positive _ e1 loc_Exact
                (round_nearest_even_positive _ (loc_of_shr_record mrs1) Hm1) He1)
    as [Hm2 _].
  destruct (shr_fexp prec emax _ e1 loc_Exact) as [mrs2 e2]. cbn [fst snd] in *.
  destruct (shr_m mrs2); try lia.
  destruct (e2 <=? emax - prec); reflexivity.
Qed.

(** Rounding with the negative sign never gives a number above zero. *)
Lemma binary_round_aux_negative (m e : Z) (l : location) :
  SFltb (S754_zero false) (binary_round_aux prec emax true m e l) = false.
Proof.
  unfold binary_round_aux.
  destruct (shr_fexp prec emax m e l) as [mrs1 e1].
  destruct (shr_fexp prec emax _ e1 loc_Exact) as [mrs2 e2].
  destruct (shr_m mrs2); try reflexivity.
  destruct (e2 <=? emax - prec); reflexivity.
Qed.

Lemma binary_normalize_positive (m e : Z) :
  0 < m -> emin prec emax <= e ->
  SFltb (S754_zero false) (binary_normalize prec emax m e false) = true.
Proof.
  intros Hm He. destruct m as [|p|p]; try lia.
  unfold binary_normalize, binary_round, shl_align.
  destruct (fexp prec emax (Zpos (digits2_pos p) + e) - e) eqn:Hn;
    apply binary_round_aux_positive; try lia.
  unfold fexp. lia.
Qed.

Lemma binary_normalize_not_positive (m e : Z) :
  m <= 0 ->
  SFltb (S754_zero false) (binary_normalize prec emax m e false) = false.
Proof.
  intros Hm. destruct m as [|p|p]; try lia; [reflexivity|].
  unfold binary_normalize, binary_round.
  destruct (shl_align _ _ _). apply binary_round_aux_negative.
Qed.


(** *** Valid numbers and their order *)

Lemma bounded_facts (m : positive) (e : Z) :
  bounded prec emax m e = true ->
  emin prec emax <= e
  /\ Zpos m < 2 ^ prec
  /\ (emin prec emax < e -> 2 ^ (prec - 1) <= Zpos m).
Proof.
  unfold bounded, canonical_mantissa, fexp. intros Hb.
  apply andb_prop in Hb as [Hc _]. apply Z.eqb_eq in Hc.
  pose proof (digits2_pos_bounds m) as [Hlow Hhigh].
  set (d := Zpos (digits2_pos m)) in *.
  split; [lia|]. split.
  - apply Z.lt_le_trans with (2 ^ d); [exact Hhigh|].
    apply Z.pow_le_mono_r; lia.
  - intros He. replace (prec - 1) with (d - 1) by lia. exact Hlow.
Qed.

Lemma shl_align_value (m : positive) (e e' : Z) :
  e' <= e -> Zpos (fst (shl_align m e e')) = Zpos m * 2 ^ (e - e').
Proof.
  intros Hle. unfold shl_align.
  destruct (e' - e) as [|d|d] eqn:Hd; cbn [fst]; try lia.
  - replace (e - e') with 0 by lia. lia.
  - rewrite iter_xO. f_equal. f_equal. lia.
Qed.

(** For two valid finite numbers, the first below the second, the
    difference of the aligned signed mantissas is positive. *)
Lemma aligned_difference_positive (sx sy : bool) (mx my : positive) (ex ey : Z) :
  bounded prec emax mx ex = true -> bounded prec emax my ey = true ->
  SFltb (S754_finite sx mx ex) (S754_finite sy my ey) = true ->
  0 < cond_Zopp sy (Zpos (fst (shl_align my ey (Z.min ey ex))))
      - cond_Zopp sx (Zpos (fst (shl_align mx ex (Z.min ey ex)))).
Proof.
  intros Hx Hy Hlt.
  apply bounded_facts in Hx as (Hex & Hmx & Hnx).
  apply bounded_facts in Hy as (Hey & Hmy & Hny).
  rewrite !shl_align_value by lia.
  assert (Hpx : 0 < 2 ^ (ex - Z.min ey ex)) by (apply Z.pow_pos_nonneg; lia).
  assert (Hpy : 0 < 2 ^ (ey - Z.min ey ex)) by (apply Z.pow_pos_nonneg; lia).
  assert (Hshift : forall a b, a < b -> 2 <= 2 ^ (b - Z.min b a) /\ 2 ^ (a - Z.min b a) = 1).
  { intros a b Hab. rewrite Z.min_r by lia.
    replace (a - a) with 0 by lia. split; [|reflexivity].
    change 2 with (2 ^ 1) at 1. apply Z.pow_le_mono_r; lia. }
  assert (Hshift' : forall a b, b < a -> 2 <= 2 ^ (a - Z.min b a) /\ 2 ^ (b - Z.min b a) = 1).
  { intros a b Hab. rewrite Z.min_l by lia.
    replace (b - b) with 0 by lia. split; [|reflexivity].
    change 2 with (2 ^ 1) at 1. apply Z.pow_le_mono_r; lia. }
  assert (H53 : 2 ^ prec = 2 * 2 ^ (prec - 1)) by reflexivity.
  unfold SFltb, SFcompare in Hlt.
  destruct sx, sy; cbn [cond_Zopp]; try discriminate Hlt.
  - (* both negative *)
    destruct (Z.compare_spec ex ey) as [Heq|Hlt'|Hgt]; try discriminate Hlt.
    + subst ey. rewrite Z.min_id, Z.sub_diag in *. 
      change (Pos.compare_cont Eq mx my) with (Pos.compare mx my) in Hlt.
      destruct (Pos.compare_spec mx my); try discriminate Hlt. simpl. lia.
    + destruct (Hshift' ex ey Hgt) as [H2 H1]. rewrite H1.
      specialize (Hnx ltac:(lia)). nia.
  - (* X negative, Y positive *)
    nia.
  - (* both positive *)
    destruct (Z.compare_spec ex ey) as [Heq|Hlt'|Hgt]; try discriminate Hlt.
    + subst ey. rewrite Z.min_id, Z.sub_diag in *.
      change (Pos.compare_cont Eq mx my) with (Pos.compare mx my) in Hlt.
      destruct (Pos.compare_spec mx my); try discriminate Hlt. simpl. lia.
    + destruct (Hshift ex ey Hlt') as [H2 H1]. rewrite H1.
      specialize (Hny ltac:(lia)). nia.
Qed.


(** *** Subtraction and the order *)

(** If [X < Y] then [Y - X] is above zero. *)
Lemma SFsub_positive (X Y : spec_float) :
  SpecFloat.valid_binary prec emax X = true ->
  SpecFloat.valid_binary prec emax Y = true ->
  SFltb X Y = true ->
  SFltb (S754_zero false) (SFsub prec emax Y X) = true.
Proof.
  intros HX HY Hlt.
  destruct X as [sx|sx| |sx mx ex], Y as [sy|sy| |sy my ey];
    try discriminate Hlt;
    try (destruct sx; try discriminate Hlt; reflexivity);
    try (destruct sy; try discriminate Hlt; reflexivity);
    try (destruct sx, sy; try discriminate Hlt; reflexivity).
  cbn [SpecFloat.valid_binary] in HX, HY. cbn [SFsub].
  apply binary_normalize_positive.
  - apply aligned_difference_positive; assumption.
  - apply bounded_facts in HX as (Hex & _). apply bounded_facts in HY as (Hey & _). lia.
Qed.

(** If [Y < X] then [Y - X] is not above zero. *)
Lemma SFsub_not_positive (X Y : spec_float) :
  SpecFloat.valid_binary prec emax X = true ->
  SpecFloat.valid_binary prec emax Y = true ->
  SFltb Y X = true ->
  SFltb (S754_zero false) (SFsub prec emax Y X) = false.
Proof.
  intros HX HY Hlt.
  destruct X as [sx|sx| |sx mx ex], Y as [sy|sy| |sy my ey];
    try discriminate Hlt;
    try (destruct sx; try discriminate Hlt; reflexivity);
    try (destruct sy; try discriminate Hlt; reflexivity);
    try (destruct sx, sy; try discriminate Hlt; reflexivity).
  cbn [SpecFloat.valid_binary] in HX, HY. cbn [SFsub].
  apply binary_normalize_not_positive.
  pose proof (aligned_difference_positive sy sx my mx ey ex HY HX Hlt) as Hpos.
  rewrite (Z.min_comm ex ey) in Hpos. lia.
Qed.

(** If neither of two numbers is below the other, their difference is a
    zero or not a number. *)
Definition zero_or_nan (X : spec_float) : Prop :=
  match X with
  | S754_zero _ | S754_nan => True
  | _ => False
  end.

Lemma SFsub_unordered (X Y : spec_float) :
  SFltb X Y = false -> SFltb Y X = false -> zero_or_nan (SFsub prec emax X Y).
Proof.
  intros Hxy Hyx.
  destruct X as [sx|sx| |sx mx ex], Y as [sy|sy| |sy my ey];
    try exact I;
    try (destruct sx; discriminate);
    try (destruct sy; discriminate);
    try (destruct sx, sy; try discriminate; exact I).
  unfold SFltb, SFcompare in Hxy, Hyx. cbn [SFsub].
  assert (Heq : sx = sy /\ ex = ey /\ mx = my).
  { change (Pos.compare_cont Eq mx my) with (Pos.compare mx my) in *.
    change (Pos.compare_cont Eq my mx) with (Pos.compare my mx) in *.
    destruct sx, sy; try discriminate;
      destruct (Z.compare_spec ex ey); destruct (Z.compare_spec ey ex);
      try discriminate; try lia;
      destruct (Pos.compare_spec mx my); destruct (Pos.compare_spec my mx);
      try discriminate; try lia; auto. }
  destruct Heq as (-> & -> & ->).
  rewrite Z.sub_diag. exact I.
Qed.

Lemma zero_or_nan_abs X : zero_or_nan X -> zero_or_nan (SFabs X).
Proof. destruct X; simpl; auto. Qed.

Lemma zero_or_nan_div X Y : zero_or_nan X -> zero_or_nan (SFdiv prec emax X Y).
Proof. destruct X, Y; simpl; intros H; try contradiction; exact I. Qed.

Lemma zero_or_nan_mul X Y : zero_or_nan X -> zero_or_nan (SFmul prec emax X Y).
Proof. destruct X, Y; simpl; intros H; try contradiction; exact I. Qed.


(** *** The order laws on binary64 *)

Lemma Prim2SF_zero : Prim2SF 0%float = S754_zero false.
Proof. reflexivity. Qed.

Lemma lt_difference_positive_binary64 (x y : float) :
  PrimFloat.ltb x y = true -> PrimFloat.ltb 0%float (PrimFloat.sub y x) = true.
Proof.
  rewrite !FloatAxioms.ltb_spec, FloatAxioms.sub_spec, Prim2SF_zero.
  apply SFsub_positive; apply FloatAxioms.Prim2SF_valid.
Qed.

Lemma difference_positive_not_gt_binary64 (x y : float) :
  PrimFloat.ltb 0%float (PrimFloat.sub y x) = true -> PrimFloat.ltb y x = false.
Proof.
  rewrite !FloatAxioms.ltb_spec, FloatAxioms.sub_spec, Prim2SF_zero. unfold SF64sub. intros Hpos.
  destruct (SFltb (Prim2SF y) (Prim2SF x)) eqn:Hlt; [|reflexivity].
  rewrite (SFsub_not_positive _ _ (FloatAxioms.Prim2SF_valid x) (FloatAxioms.Prim2SF_valid y) Hlt) in Hpos.
  discriminate Hpos.
Qed.

Lemma spread_strictly_ordered_binary64 (p q : float) :
  JS.lt (thresholdPct (num := float)) (spreadPct p q) = true ->
  JS.lt p q = false -> JS.lt q p = true.
Proof.
  unfold thresholdPct, spreadPct.
  cbn [JS.lt JS.lit_0_1 JS.mul JS.div JS.add JS.sub JS.Math_abs JS.of_Z Binary64.number].
  intros Hspread Hpq.
  destruct (PrimFloat.ltb q p) eqn:Hqp; [reflexivity|exfalso].
  rewrite FloatAxioms.ltb_spec in Hpq, Hqp, Hspread.
  rewrite FloatAxioms.mul_spec, FloatAxioms.div_spec, FloatAxioms.abs_spec, FloatAxioms.sub_spec in Hspread.
  pose proof (SFsub_unordered _ _ Hpq Hqp) as Hzero.
  apply zero_or_nan_abs in Hzero.
  apply (zero_or_nan_div _ (Prim2SF ((p + q) / Binary64.of_Z 2)%float)) in Hzero.
  apply (zero_or_nan_mul _ (Prim2SF (Binary64.of_Z 100))) in Hzero.
  unfold SF64mul, SF64div, SF64sub in Hspread.
  destruct (SFmul prec emax _ _); try contradiction; discriminate Hspread.
Qed.

#[export] Instance spread_order : SpreadOrder float.
Proof.
  split.
  - exact lt_difference_positive_binary64.
  - exact difference_positive_not_gt_binary64.
  - exact spread_strictly_ordered_binary64.
Qed.

End Binary64Order.

(** ** The engine on binary64 numbers *)

Module Binary64Facts.
Import Binary64.

(** The literals of the source are exact, and [Math.max] treats NaN and the
    signed zeros as ECMAScript says. *)
Example literals_and_max :
  JS.of_Z 0 = 0%float /\ JS.of_Z 1 = 1%float /\ JS.of_Z 2 = 2%float
  /\ JS.of_Z 100 = 100%float /\ JS.of_Z 300000 = 300000%float
  /\ JS.Math_max 0%float (-0.5)%float = 0%float
  /\ JS.Math_max 0%float 0.25%float = 0.25%float
  /\ JS.Math_max 0%float PrimFloat.nan = PrimFloat.nan
  /\ JS.Math_max (-0)%float 0%float = 0%float
  /\ JS.Math_min 0.9%float 0.95%float = 0.9%float.
Proof. vm_compute. repeat split; reflexivity. Qed.

(** An observation; [latency] plays no part in the computations. *)
Definition observation (name : string) (p c t : float) : PriceSource float :=
  {| source := name; price := p; confidence := c; timestamp := t; latency := 0%float |}.

(** Two sources that agree on the price 100: Pyth, one second old, and a
    stale-rated Chainlink answer. *)
Definition pyth_100 : PriceSource float :=
  observation "pyth" 100%float 0.95%float 999000%float.
Definition chainlink_100 : PriceSource float :=
  observation "chainlink" 100%float 0.5%float 1000000%float.

(** C5, as the code has it. For two observations priced 100 and 102, with
    whatever confidence and timestamp, [calculateDeviation] is
    0.9900990099009901, that is 0.99 to two decimals: the population
    standard deviation is 1 and the mean 101.  The figure 1.98 is the
    spread of the pair, not its deviation. *)
Theorem deviation_of_100_and_102
    (name1 name2 : string) (c t latency1 latency2 : float) :
  let sources :=
    [ {| source := name1; price := 100%float; confidence := c;
         timestamp := t; latency := latency1 |};
      {| source := name2; price := 102%float; confidence := c;
         timestamp := t; latency := latency2 |} ] in
  calculateDeviation sources = 0.99009900990099009%float
  /\ approx (calculateDeviation sources) 0.99%float = true
  /\ population_stddev (map price sources) = 1%float
  /\ arithmetic_mean (map price sources) = 101%float
  /\ spreadPct 100%float 102%float = 1.9801980198019802%float.
Proof. intros sources. subst sources. vm_compute. auto. Qed.

(** C5 as stated fails: the deviation of prices 100 and 102 is not 1.98 to
    two decimals. *)
Lemma deviation_of_100_and_102_is_not_1_98 :
  approx
    (calculateDeviation
       [observation "chainlink" 100%float 0.9%float 1000000%float;
        observation "pyth" 102%float 0.9%float 1000000%float])
    1.98%float = false.
Proof. vm_compute. reflexivity. Qed.



(** The theorem for two or more observations at the two sources above:
    the weights are 0.95 * (1 - 1000/300000) and 0.5. *)
Lemma calculateWeightedAverage_weighted_mean_witness :
  2 <= length [pyth_100; chainlink_100]
  /\ calculateWeightedAverage 1000000%float [pyth_100; chainlink_100]
     = Ok {| wp_price := 100.00000000000001%float;
             wp_confidence := 0.72499999999999998%float |}.
Proof.
  split; [simpl; lia|].
  rewrite (calculateWeightedAverage_weighted_mean 1000000%float [pyth_100; chainlink_100])
    by (simpl; lia).
  vm_compute. reflexivity.
Defined.

(** The specification's example: 100 at confidence 0.90 against 101.5 at
    confidence 0.95 is one opportunity, buying at the 100 source, with a
    spread of 1.49 to two decimals and confidence 0.90. *)
Example detectArbitrage_100_against_101_5 :
  detectArbitrage
    [observation "chainlink" 100%float 0.90%float 1000000%float;
     observation "pyth" 101.5%float 0.95%float 1000000%float]
  = [ {| buy_source := "chainlink";
         sell_source := "pyth";
         spread_percentage := 1.4888337468982631%float;
         profit_potential := 1.5%float;
         arb_confidence := 0.90%float |} ]
  /\ approx 1.4888337468982631%float 1.49%float = true.
Proof. vm_compute. auto. Qed.

(** A world for one request: the cache is up, Chainlink rejects and Pyth
    answers. *)
Definition stringify (u : UnifiedPriceData (num := float)) : string :=
  u_chain u +:+ ":" +:+ u_symbol u.
Definition parse (text : string) : Result (UnifiedPriceData (num := float)) :=
  Throw (Foreign "SyntaxError").
Definition freshness (now : float) (sources : list (PriceSource float)) : string := "0s".

Definition pyth_answer : PythPriceData (num := float) :=
  {| py_symbol := "ETH/USD"; py_price := 2000%float; py_confidence := 0.95%float;
     py_timestamp := 1000000%float; py_network := "mainnet"; py_source := "pyth";
     py_publishTime := 1000000%float |}.

Definition at_1000000 : Clock (num := float) :=
  {| now_chainlink_latency := 1000000%float; now_pyth_latency := 1000000%float;
     now_weights := 1000000%float; now_timestamp := 1000000%float;
     now_last_updated := 1000000%float; now_freshness := 1000000%float |}.

Definition chainlink_down : World (num := float) :=
  {| redis_get_error := None;
     redis_set_error := None;
     chainlink_getPrice := fun _ _ => Rejected (Foreign "timeout");
     pyth_getPrice := fun _ => Fulfilled (Some pyth_answer);
     CACHE_TTL_PRICE := 30;
     clock := at_1000000 |}.

(** The same world with the cache down. *)
Definition redis_down : World (num := float) :=
  {| redis_get_error := Some "Redis not connected";
     redis_set_error := Some "Redis not connected";
     chainlink_getPrice := fun _ _ => Rejected (Foreign "timeout");
     pyth_getPrice := fun _ => Fulfilled (Some pyth_answer);
     CACHE_TTL_PRICE := 30;
     clock := at_1000000 |}.

(** The same world with a cache that reads but does not write. *)
Definition redis_read_only : World (num := float) :=
  {| redis_get_error := None;
     redis_set_error := Some "READONLY";
     chainlink_getPrice := fun _ _ => Rejected (Foreign "timeout");
     pyth_getPrice := fun _ => Fulfilled (Some pyth_answer);
     CACHE_TTL_PRICE := 30;
     clock := at_1000000 |}.

Definition cold : EngineState := {| redis_store := ∅; calls := [] |}.


(** A world in which no adapter answers usably, a cached result, and a
    cache that holds a text for the request. *)
Definition adapters_down : World (num := float) :=
  {| redis_get_error := None;
     redis_set_error := None;
     chainlink_getPrice := fun _ _ => Rejected (Foreign "timeout");
     pyth_getPrice := fun _ => Fulfilled None;
     CACHE_TTL_PRICE := 30;
     clock := at_1000000 |}.

Definition cached_result : UnifiedPriceData (num := float) :=
  {| u_symbol := "ETH";
     u_chain := "ethereum";
     u_price := 1999%float;
     u_confidence := 0.98%float;
     u_timestamp := 990000%float;
     u_sources := ["chainlink"];
     u_source_count := 1;
     u_price_deviation := 0%float;
     u_arbitrage_opportunities := [];
     u_metadata := {| last_updated := 990000%float;
                      data_freshness := "0s";
                      api_version := "1.0" |} |}.

Definition parse_cached (text : string) : Result (UnifiedPriceData (num := float)) :=
  Ok cached_result.

Definition holding_ETH : EngineState :=
  {| redis_store := {[ "unified:ethereum:ETH" := "ethereum:ETH" ]}; calls := [] |}.

(** C7 as stated fails both ways: with Pyth answering and a cache that
    rejects the write, the request fails; and with no adapter answering
    usably and a cached result, the request succeeds. *)
Lemma getUnifiedPrice_fails_though_an_adapter_answers :
  (usable (pyth_getPrice redis_read_only ("ETH" +:+ "/USD")) = true
   /\ (getUnifiedPrice stringify parse freshness redis_read_only "ETH" "ethereum" cold).1
      = Throw (Foreign "READONLY"))
  /\ (usable (chainlink_getPrice adapters_down "ethereum" ("ETH" +:+ "/USD")) = false
      /\ usable (pyth_getPrice adapters_down ("ETH" +:+ "/USD")) = false
      /\ (getUnifiedPrice stringify parse_cached freshness adapters_down
            "ETH" "ethereum" holding_ETH).1
         = Ok cached_result).
Proof.
  split; [split; [reflexivity|vm_compute; reflexivity]|].
  split; [reflexivity|]. split; [reflexivity|].
  unfold getUnifiedPrice, redis_get, holding_ETH.
  cbv [mbind Async_bind mret Async_ret call throw lift try_catch]. cbn.
  change (cacheKey "ETH" "ethereum") with "unified:ethereum:ETH".
  rewrite lookup_singleton_eq. reflexivity.
Qed.

(** C8 as stated fails: with the cache down and Pyth up the request fails
    with the cache's error, and no adapter is asked. *)
Lemma getUnifiedPrice_fails_when_redis_is_down :
  getUnifiedPrice stringify parse freshness redis_down "ETH" "ethereum" cold
  = (Throw (Foreign "Redis not connected"),
     {| redis_store := ∅;
        calls := [RedisGet "unified:ethereum:ETH";
                  LoggerError "Failed to get unified price for ETH on ethereum:"
                    (Foreign "Redis not connected")] |}).
Proof. vm_compute. reflexivity. Qed.

Lemma getUnifiedPrice_cache_error_rethrown_witness :
  (redis_get_error redis_down = Some "Redis not connected"
   /\ (getUnifiedPrice stringify parse freshness redis_down "ETH" "ethereum" cold).1
      = Throw (Foreign "Redis not connected"))
  /\ (redis_get_error redis_read_only = None
      /\ cache_miss cold "ETH" "ethereum"
      /\ observations redis_read_only "ETH" "ethereum" <> []
      /\ redis_set_error redis_read_only = Some "READONLY"
      /\ (getUnifiedPrice stringify parse freshness redis_read_only "ETH" "ethereum" cold).1
         = Throw (Foreign "READONLY")).
Proof.
  split.
  - split; [reflexivity|].
    rewrite (proj1 (getUnifiedPrice_cache_error_rethrown stringify parse freshness
                      redis_down "ETH" "ethereum" cold "Redis not connected") eq_refl).
    reflexivity.
  - assert (Hobs : observations redis_read_only "ETH" "ethereum" <> []) by discriminate.
    split; [reflexivity|]. split; [exact I|]. split; [exact Hobs|].
    split; [reflexivity|].
    exact (proj1 (proj2 (getUnifiedPrice_cache_error_rethrown stringify parse freshness
                           redis_read_only "ETH" "ethereum" cold "READONLY")
                    eq_refl I Hobs eq_refl)).
Defined.

(** Three sources, two of them above the threshold from the third. *)
Definition three_sources : list (PriceSource float) :=
  [observation "chainlink" 100%float 0.90%float 1000000%float;
   observation "pyth" 101.5%float 0.95%float 999000%float;
   observation "ai" 100.05%float 0.5%float 1000000%float].

Lemma detectArbitrage_pairs_sorted_witness :
  detectArbitrage three_sources ≡ₚ
    map (fun p => opportunity p.1 p.2)
      (List.filter (fun p => JS.lt thresholdPct (spreadPct (price p.1) (price p.2)))
         (unordered_pairs three_sources))
  /\ Sorted not_below (detectArbitrage three_sources)
  /\ map buy_source (detectArbitrage three_sources) = ["chainlink"; "ai"].
Proof.
  destruct (detectArbitrage_pairs_sorted (H0 := Binary64Order.spread_order) three_sources)
    as (Hperm & Hsorted & _).
  split; [exact Hperm|]. split; [exact Hsorted|].
  vm_compute. reflexivity.
Defined.

End Binary64Facts.

(** ** The theorems of exact arithmetic at concrete observations *)

Module ExactExamples.
Import Exact ExactFacts.
Local Open Scope Q_scope.




End ExactExamples.

(** ** The manager at two connections *)

Module WebSocketExamples.

Definition at_time (now : nat) (open_sockets : list WebSocket) : Moment nat :=
  {| readyState := fun ws => if bool_decide (ws ∈ open_sockets) then OPEN else CLOSED;
     now := now |}.

(** Connections 1 and 2 are registered and hold no subscription yet. *)
Definition connected : Subscriptions := on_connection (on_connection ∅ 2) 1.

Definition engine (symbol chain : string) : Result string :=
  if String.eqb symbol "ETH" then Ok "ETH at 2000" else Throw (NoPriceData symbol chain).

Lemma broadcast_reaches_subscribers_only_witness :
  let after_A :=
    (handleSubscribe (at_time 10 [1; 2]) (at_time 11 [1; 2]) engine connected 1
       (request "ETH" "eth" None)).1 in
  let after_B :=
    (handleSubscribe (at_time 12 [1; 2]) (at_time 13 [1; 2]) engine after_A 2
       (request "MATIC" "polygon" None)).1 in
  let after_unsubscribe :=
    (handleUnsubscribe (PriceUpdate := string) (at_time 30 [1]) after_B 1
       (request "ETH" "eth" None)).1 in
  delivered_to 1 (broadcastPriceUpdate (at_time 20 [1]) after_B "ETH" "eth" "ETH at 2001")
    = [ {| type := price_update;
           payload := PricePayload "ETH at 2001";
           msg_timestamp := 20;
           request_id := None |} ]
  /\ delivered_to 2 (broadcastPriceUpdate (at_time 20 [1]) after_B "ETH" "eth" "ETH at 2001")
     = []
  /\ delivered_to 1
       (broadcastPriceUpdate (at_time 40 [1]) after_unsubscribe "ETH" "eth" "ETH at 2002")
     = [].
Proof.
  intros after_A after_B after_unsubscribe.
  pose proof (fun priceData =>
    broadcast_reaches_subscribers_only
      (at_time 10 [1; 2]) (at_time 11 [1; 2]) (at_time 12 [1; 2])
      (at_time 13 [1; 2]) (at_time 30 [1]) (at_time 20 [1]) (at_time 40 [1])
      engine connected 1 2 "ETH" "eth" "MATIC" "polygon" None None None
      ∅ ∅ priceData
      ltac:(discriminate) ltac:(discriminate)
      ltac:(discriminate) ltac:(discriminate) ltac:(discriminate) ltac:(discriminate)
      eq_refl eq_refl (not_elem_of_empty _)) as Hbroadcast.
  destruct (Hbroadcast "ETH at 2001") as (HA & HB & _).
  destruct (Hbroadcast "ETH at 2002") as (_ & _ & HU & _).
  split; [apply HA; reflexivity|]. split; [exact HB|exact HU].
Defined.

Lemma handleSubscribe_sends_initial_price_witness :
  "ETH" <> "" /\ "eth" <> "" /\ connected !! 1 = Some ∅
  /\ subscribed
       (handleSubscribe (at_time 10 [1]) (at_time 11 [1]) engine connected 1
          (request "ETH" "eth" (Some "r1"))).1 1 "eth:ETH" = true
  /\ delivered_to 1
       (handleSubscribe (at_time 10 [1]) (at_time 11 [1]) engine connected 1
          (request "ETH" "eth" (Some "r1"))).2
     = [ {| type := subscribe;
            payload := SubscriptionPayload "subscribed" "ETH" "eth" "eth:ETH";
            msg_timestamp := 10;
            request_id := Some "r1" |};
         {| type := price_update;
            payload := PricePayload "ETH at 2000";
            msg_timestamp := 11;
            request_id := None |} ].
Proof.
  assert (Hws : connected !! 1 = Some (∅ : gset string)) by reflexivity.
  destruct (handleSubscribe_sends_initial_price (at_time 10 [1]) (at_time 11 [1])
              engine connected 1 "ETH" "eth" (Some "r1") ∅
              ltac:(discriminate) ltac:(discriminate) Hws)
    as (Hrecorded & _ & Hsent).
  split; [discriminate|]. split; [discriminate|]. split; [exact Hws|].
  split; [exact Hrecorded|].
  change (engine "ETH" "eth") with (Ok "ETH at 2000" : Result string) in Hsent.
  exact (proj2 Hsent).
Defined.

End WebSocketExamples.

(** ** Edge cases of the consensus and of the arbitrage scan *)

Section EngineEdges.
Context {num : Type} `{JS.Number num}.
Local Open Scope js_scope.

(** X1. [calculateWeightedAverage] throws exactly on the empty list, and
    then the error 'No price sources available'; on every other list it
    returns. *)
Theorem calculateWeightedAverage_throws_only_on_empty
    (now : num) (sources : list (PriceSource num)) :
  match calculateWeightedAverage now sources with
  | Throw e => sources = [] /\ e = NoPriceSources
  | Ok _ => sources <> []
  end.
Proof.
  destruct sources as [|o1 [|o2 rest]]; simpl.
  - split; reflexivity.
  - discriminate.
  - destruct (JS.strict_eq _ _); discriminate.
Qed.

(** Where the pairs of [unordered_pairs] sit in the list. *)
Lemma unordered_pairs_lookup {A : Type} (xs : list A) (a b : A) :
  (a, b) ∈ unordered_pairs xs ->
  exists i j, (i < j)%nat /\ xs !! i = Some a /\ xs !! j = Some b.
Proof.
  induction xs as [|x xs IH]; simpl; intros Hin.
  - inversion Hin.
  - apply elem_of_app in Hin as [Hin|Hin].
    + apply list_elem_of_fmap in Hin as (y & Heq & Hy).
      injection Heq as -> ->.
      apply list_elem_of_lookup in Hy as [j Hj].
      exists 0%nat, (S j). split; [lia|]. split; [reflexivity|exact Hj].
    + destruct (IH Hin) as (i & j & Hij & Hi & Hj).
      exists (S i), (S j). split; [lia|]. split; assumption.
Qed.

Lemma unordered_pairs_length {A : Type} (xs : list A) :
  (2 * length (unordered_pairs xs) = length xs * (length xs - 1))%nat.
Proof.
  induction xs as [|x xs IH]; simpl; [reflexivity|].
  rewrite length_app, length_map. nia.
Qed.

Lemma emitted_elem (sources : list (PriceSource num)) (o : ArbitrageOpportunity num) :
  o ∈ emitted sources ->
  exists a b, (a, b) ∈ unordered_pairs sources /\ exceeds a b = true /\ o = opportunity a b.
Proof.
  unfold emitted. intros Hin.
  apply list_elem_of_fmap in Hin as ([a b] & -> & Hin).
  apply list_elem_of_In, filter_In in Hin as [Hin Hex].
  exists a, b. split; [apply list_elem_of_In, Hin|]. split; [exact Hex|reflexivity].
Qed.

(** X2. Every opportunity [detectArbitrage] returns comes from two sources
    of the input, the earlier one first, has a spread strictly above 0.1,
    and names those two sources as its buyer and seller. *)
Theorem detectArbitrage_opportunity_origin
    (sources : list (PriceSource num)) (o : ArbitrageOpportunity num) :
  o ∈ detectArbitrage sources ->
  (spread_percentage o >? thresholdPct) = true
  /\ exists i j a b,
       (i < j)%nat /\ sources !! i = Some a /\ sources !! j = Some b
       /\ o = opportunity a b
       /\ (buy_source o = source a /\ sell_source o = source b
           \/ buy_source o = source b /\ sell_source o = source a).
Proof.
  rewrite detectArbitrage_sorts_emitted. intros Hin.
  rewrite sort_Permutation in Hin.
  apply emitted_elem in Hin as (a & b & Hpair & Hex & ->).
  split; [exact Hex|].
  apply unordered_pairs_lookup in Hpair as (i & j & Hij & Hi & Hj).
  exists i, j, a, b. repeat split; try assumption.
  unfold opportunity. cbn [buy_source sell_source].
  destruct (price a <? price b); [left|right]; split; reflexivity.
Qed.

(** X3. [detectArbitrage] returns at most one opportunity per unordered
    pair: at most n(n-1)/2 for n sources, so none for fewer than two. *)
Theorem detectArbitrage_at_most_one_per_pair (sources : list (PriceSource num)) :
  (2 * length (detectArbitrage sources) <= length sources * (length sources - 1))%nat.
Proof.
  rewrite detectArbitrage_sorts_emitted, sort_Permutation.
  unfold emitted. rewrite length_map, <- unordered_pairs_length.
  pose proof (List.filter_length_le
                (fun p : PriceSource num * PriceSource num => exceeds p.1 p.2)
                (unordered_pairs sources)).
  lia.
Qed.

End EngineEdges.

Section AgreeingSources.
Context {num : Type} `{SpreadOrder num}.
Local Open Scope js_scope.

(** X4. When no source is priced strictly below another (the sources
    agree, or a price is not a number), [detectArbitrage] finds nothing. *)
Theorem detectArbitrage_agreeing_sources (sources : list (PriceSource num)) :
  (forall a b, a ∈ sources -> b ∈ sources -> (price a <? price b) = false) ->
  detectArbitrage sources = [].
Proof.
  intros Hagree.
  apply Permutation_nil_r.
  rewrite detectArbitrage_sorts_emitted, sort_Permutation.
  destruct (emitted sources) as [|o rest] eqn:Hemitted; [reflexivity|exfalso].
  assert (Hin : o ∈ emitted sources) by (rewrite Hemitted; left).
  apply emitted_elem in Hin as (a & b & Hpair & Hex & _).
  apply unordered_pairs_lookup in Hpair as (i & j & _ & Hi & Hj).
  apply list_elem_of_lookup_2 in Hi, Hj.
  pose proof (spread_strictly_ordered (price a) (price b) Hex (Hagree a b Hi Hj)) as Hlt.
  rewrite (Hagree b a Hj Hi) in Hlt. discriminate Hlt.
Qed.

End AgreeingSources.

(** ** The consensus in exact arithmetic: confidence and zero weights *)

Module ExactConsensus.
Import Exact ExactFacts.
Local Open Scope Q_scope.







End ExactConsensus.

(** ** The request path: cache hits, keys and the shape of a result *)

Section RequestPaths.
Context {num : Type} `{JS.Number num} `{JS.Roots num}.
Variable JSON_stringify : UnifiedPriceData (num := num) -> string.
Variable JSON_parse : string -> Result (UnifiedPriceData (num := num)).
Variable calculateFreshness : num -> list (PriceSource num) -> string.

Local Abbreviation request_price :=
  (getUnifiedPrice JSON_stringify JSON_parse calculateFreshness).

Definition cache_hit_message (symbol chain : string) : string :=
  "Cache hit for " +:+ chain +:+ ":" +:+ symbol.

(** After a probe that found a text, the request is the parse of the
    text, with the [catch] block around it. *)
Lemma getUnifiedPrice_after_hit
    (w : World) (symbol chain : string) (st : EngineState) (text : string) :
  redis_get_error w = None ->
  redis_store st !! cacheKey symbol chain = Some text ->
  truthy text = true ->
  request_price w symbol chain st =
    try_catch
      (call (LoggerDebug (cache_hit_message symbol chain));; lift (JSON_parse text))
      (fun e => call (LoggerError (failure_message symbol chain) e);; throw e)
      (with_calls st [RedisGet (cacheKey symbol chain)]).
Proof.
  intros Hget Hlookup Htruthy.
  unfold getUnifiedPrice, redis_get, with_calls. rewrite Hget.
  cbv [mbind Async_bind mret Async_ret call throw lift try_catch]. cbn.
  rewrite Hlookup, Htruthy. reflexivity.
Qed.

(** X8. When the cache holds a non-empty text under the request's key,
    [getUnifiedPrice] asks no adapter and writes nothing: it returns what
    [JSON.parse] makes of the text, and if [JSON.parse] throws, the request
    fails with that error instead of falling through to the sources. *)
Theorem getUnifiedPrice_cache_hit
    (w : World) (symbol chain : string) (st : EngineState) (text : string) :
  redis_get_error w = None ->
  redis_store st !! cacheKey symbol chain = Some text ->
  truthy text = true ->
  request_price w symbol chain st =
    match JSON_parse text with
    | Ok unified =>
        (Ok unified,
         with_calls st [RedisGet (cacheKey symbol chain);
                        LoggerDebug (cache_hit_message symbol chain)])
    | Throw e =>
        (Throw e,
         with_calls st [RedisGet (cacheKey symbol chain);
                        LoggerDebug (cache_hit_message symbol chain);
                        LoggerError (failure_message symbol chain) e])
    end.
Proof.
  intros Hget Hlookup Htruthy.
  rewrite (getUnifiedPrice_after_hit w symbol chain st text Hget Hlookup Htruthy).
  cbv [mbind Async_bind call throw lift try_catch]. unfold with_calls. cbn.
  destruct (JSON_parse text); cbn; rewrite <- ?app_assoc; reflexivity.
Qed.

(** What a request that found nothing in the cache comes to. *)
Definition calculated_message (symbol chain : string) : string :=
  "Unified price calculated for " +:+ chain +:+ ":" +:+ symbol.

Lemma getUnifiedPrice_miss_run
    (w : World) (symbol chain : string) (st : EngineState) :
  redis_get_error w = None -> cache_miss st symbol chain ->
  let sources := observations w symbol chain in
  let key := cacheKey symbol chain in
  let asked := [RedisGet key; ChainlinkGetPrice chain (symbol +:+ "/USD");
                PythGetPrice (symbol +:+ "/USD")] in
  let run := request_price w symbol chain st in
  (sources = []
   /\ run = (Throw (NoPriceData symbol chain),
             with_calls st (asked ++ [LoggerError (failure_message symbol chain)
                                        (NoPriceData symbol chain)])))
  \/ (sources <> [] /\ exists weightedPrice,
        calculateWeightedAverage (now_weights (clock w)) sources = Ok weightedPrice
        /\ let unified := unifiedData calculateFreshness w symbol chain sources weightedPrice in
           let write := redis_write key (JSON_stringify unified) (CACHE_TTL_PRICE w) in
           run = match redis_set_error w with
                 | Some message =>
                     (Throw (Foreign message),
                      with_calls st (asked ++ [write;
                                               LoggerError (failure_message symbol chain)
                                                 (Foreign message)]))
                 | None =>
                     (Ok unified,
                      {| redis_store := <[key := JSON_stringify unified]> (redis_store st);
                         calls := calls st
                                  ++ asked ++ [write;
                                               LoggerDebug (calculated_message symbol chain)] |})
                 end).
Proof.
  intros Hget Hmiss sources key asked run. subst run.
  rewrite (getUnifiedPrice_after_miss _ _ _ w symbol chain st Hget Hmiss).
  unfold try_catch.
  destruct (decide (sources = [])) as [Hempty|Hsome].
  - left. rewrite (fetch_and_unify_no_source _ _ w symbol chain _ Hempty).
    cbv [mbind Async_bind call throw]. unfold with_calls. cbn.
    rewrite <- !app_assoc. auto.
  - right. split; [exact Hsome|].
    destruct (calculateWeightedAverage_returns (now_weights (clock w)) sources Hsome)
      as [weightedPrice Hwp].
    exists weightedPrice. split; [exact Hwp|].
    rewrite (fetch_and_unify_sources _ _ w symbol chain _ weightedPrice Hsome Hwp).
    destruct (redis_set_error w); cbv [mbind Async_bind call throw];
      unfold with_calls; cbn; rewrite <- ?app_assoc; reflexivity.
Qed.

Lemma getUnifiedPrice_miss_outcome
    (w : World) (symbol chain : string) (st : EngineState) :
  redis_get_error w = None -> cache_miss st symbol chain ->
  let sources := observations w symbol chain in
  let run := request_price w symbol chain st in
  (sources = [] /\ run.1 = Throw (NoPriceData symbol chain)
   /\ redis_store run.2 = redis_store st)
  \/ (sources <> [] /\ exists weightedPrice,
        calculateWeightedAverage (now_weights (clock w)) sources = Ok weightedPrice
        /\ let unified := unifiedData calculateFreshness w symbol chain sources weightedPrice in
           match redis_set_error w with
           | Some message =>
               run.1 = Throw (Foreign message) /\ redis_store run.2 = redis_store st
           | None =>
               run.1 = Ok unified
               /\ redis_store run.2
                  = <[cacheKey symbol chain := JSON_stringify unified]> (redis_store st)
           end).
Proof.
  intros Hget Hmiss sources run.
  destruct (getUnifiedPrice_miss_run w symbol chain st Hget Hmiss)
    as [(Hempty & Hrun)|(Hsome & weightedPrice & Hwp & Hrun)].
  - left. subst run. rewrite Hrun. auto.
  - right. split; [exact Hsome|]. exists weightedPrice. split; [exact Hwp|].
    cbv zeta in Hrun. subst run. rewrite Hrun.
    destruct (redis_set_error w); auto.
Qed.


(** The key a call to the cache names. *)
Definition redis_key (c : Call) : option string :=
  match c with
  | RedisGet key | RedisSetex key _ _ | RedisSet key _ => Some key
  | _ => None
  end.

Lemma own_key_only (key own : string) (made : list Call) :
  key <> own ->
  Forall (fun c => redis_key c = None \/ redis_key c = Some own) made ->
  forall c, c ∈ made -> redis_key c <> Some key.
Proof.
  intros Hkey Hmade c Hin. rewrite Forall_forall in Hmade.
  destruct (Hmade c Hin) as [Hnone|Hown]; congruence.
Qed.

Lemma redis_key_write (key value : string) (ttl : nat) :
  redis_key (redis_write key value ttl) = Some key.
Proof. unfold redis_write. destruct (Nat.eqb ttl 0); reflexivity. Qed.

Ltac own_calls :=
  repeat (constructor; [solve [cbn; rewrite ?redis_key_write; auto]|]);
  constructor.

(** X10. [getUnifiedPrice] reads and writes the cache under the request's
    own key only: whatever happens, none of the calls it makes names
    another key, and every other key holds after its calls what it held
    before. *)
Theorem getUnifiedPrice_uses_own_key_only
    (w : World) (symbol chain : string) (st : EngineState) (key : string) :
  key <> cacheKey symbol chain ->
  let st' := (request_price w symbol chain st).2 in
  redis_store st' !! key = redis_store st !! key
  /\ exists made, calls st' = calls st ++ made
       /\ forall c, c ∈ made -> redis_key c <> Some key.
Proof.
  intros Hkey st'. subst st'.
  assert (Hcases :
    redis_get_error w <> None
    \/ (redis_get_error w = None
        /\ exists text, redis_store st !! cacheKey symbol chain = Some text
                        /\ truthy text = true)
    \/ (redis_get_error w = None /\ cache_miss st symbol chain)).
  { unfold cache_miss. destruct (redis_get_error w); [left; discriminate|right].
    destruct (redis_store st !! cacheKey symbol chain) as [text|]; [|auto].
    destruct (truthy text) eqn:Htruthy; [left|right]; eauto. }
  destruct Hcases as [Hfail|[(Hget & text & Hlookup & Htruthy)|(Hget & Hmiss)]].
  - unfold getUnifiedPrice, redis_get.
    destruct (redis_get_error w) as [message|]; [|congruence].
    cbv [mbind Async_bind mret Async_ret call throw lift try_catch]. cbn.
    split; [reflexivity|]. rewrite <- app_assoc. eexists. split; [reflexivity|].
    apply own_key_only with (own := cacheKey symbol chain); [exact Hkey|].
    own_calls.
  - rewrite (getUnifiedPrice_after_hit w symbol chain st text Hget Hlookup Htruthy).
    cbv [mbind Async_bind call throw lift try_catch]. unfold with_calls. cbn.
    destruct (JSON_parse text); cbn; rewrite <- ?app_assoc; (split; [reflexivity|]);
      (eexists; split; [reflexivity|]);
      (apply own_key_only with (own := cacheKey symbol chain); [exact Hkey|]);
      own_calls.
  - destruct (getUnifiedPrice_miss_run w symbol chain st Hget Hmiss)
      as [(_ & ->)|(_ & weightedPrice & _ & Hrun)].
    + split; [reflexivity|]. eexists. split; [reflexivity|].
      apply own_key_only with (own := cacheKey symbol chain); [exact Hkey|].
      own_calls.
    + cbv zeta in Hrun. rewrite Hrun.
      destruct (redis_set_error w); cbn [snd redis_store calls with_calls].
      * split; [reflexivity|]. eexists. split; [reflexivity|].
        apply own_key_only with (own := cacheKey symbol chain); [exact Hkey|].
        own_calls.
      * split; [apply lookup_insert_ne; congruence|].
        eexists. split; [reflexivity|].
        apply own_key_only with (own := cacheKey symbol chain); [exact Hkey|].
        own_calls.
Qed.

(** X11. A result computed on a cache miss names the request's symbol and
    chain, counts its sources as it lists them, has one or two sources,
    each "chainlink" or "pyth", and with a single source has deviation 0
    and no arbitrage opportunity. *)
Theorem getUnifiedPrice_result_shape
    (w : World) (symbol chain : string) (st : EngineState)
    (unified : UnifiedPriceData) :
  redis_get_error w = None -> cache_miss st symbol chain ->
  (request_price w symbol chain st).1 = Ok unified ->
  u_symbol unified = symbol /\ u_chain unified = chain
  /\ u_source_count unified = length (u_sources unified)
  /\ (1 <= u_source_count unified <= 2)%nat
  /\ (forall name, name ∈ u_sources unified -> name = "chainlink" \/ name = "pyth")
  /\ (u_source_count unified = 1%nat ->
      u_price_deviation unified = JS.of_Z 0
      /\ u_arbitrage_opportunities unified = []).
Proof.
  intros Hget Hmiss Hresult.
  destruct (getUnifiedPrice_miss_outcome w symbol chain st Hget Hmiss)
    as [(_ & Hthrow & _)|(Hsome & weightedPrice & _ & Hrun)].
  { rewrite Hthrow in Hresult. discriminate Hresult. }
  cbv zeta in Hrun.
  assert (Heq : unified = unifiedData calculateFreshness w symbol chain
                            (observations w symbol chain) weightedPrice).
  { destruct (redis_set_error w); destruct Hrun as [Hrun _];
      rewrite Hrun in Hresult; [discriminate Hresult|].
    injection Hresult as <-. reflexivity. }
  subst unified. unfold unifiedData. cbn.
  rewrite length_map.
  unfold observations in *.
  destruct (chainlink_getPrice w chain _) as [[c|]|?];
    destruct (pyth_getPrice w _) as [[p|]|?];
    try (exfalso; apply Hsome; reflexivity);
    cbn; repeat split; try lia; try reflexivity;
    try (intros name Hname; repeat (apply elem_of_cons in Hname as [->|Hname]);
         [..|inversion Hname]; auto);
    try (intros Hone; discriminate Hone).
Qed.

End RequestPaths.

(** ** The WebSocket manager: dispatch, registry and closed connections *)

(** [message.type] as the [switch] sees it: a string, or another value
    (absent included), of which only the text [`${message.type}`] matters. *)
Inductive MessageTag : Type :=
  | TagString (text : string)
  | TagOther (printed : string).

Definition printed_tag (tag : MessageTag) : string :=
  match tag with TagString text => text | TagOther printed => printed end.

Section WebSocketDispatch.
Context {PriceUpdate Time : Type}.
Implicit Types (t : Moment Time) (subscriptions : Subscriptions) (ws : WebSocket).

(** [handleMessage], for a [message] that is an object: the dispatch on
    [message.type].  Neither handler throws, so the [catch] block around
    the [switch] has nothing to catch. *)
Definition handleMessage (t t' : Moment Time)
    (getUnifiedPrice : string -> string -> Result PriceUpdate)
    (subscriptions : Subscriptions) (ws : WebSocket)
    (tag : MessageTag) (message : ClientRequest)
  : Subscriptions * list (Effect PriceUpdate Time) :=
  let unknown :=
    (subscriptions, sendError t ws ("Unknown message type: " +:+ printed_tag tag)) in
  match tag with
  | TagString text =>
      if String.eqb text "subscribe"
      then handleSubscribe t t' getUnifiedPrice subscriptions ws message
      else if String.eqb text "unsubscribe"
      then handleUnsubscribe t subscriptions ws message
      else unknown
  | TagOther _ => unknown
  end.

(** [getActiveSubscriptions]: the sizes of all the sets, added up. *)
Definition getActiveSubscriptions (subscriptions : Subscriptions) : nat :=
  map_fold (fun (_ : WebSocket) (clientSubscriptions : gset string) total =>
              total + size clientSubscriptions) 0 subscriptions.

(** The registry is as before, or the sender's set was replaced. *)
Definition only_sender_updated (subscriptions after : Subscriptions) (ws : WebSocket) : Prop :=
  after = subscriptions
  \/ exists old new, subscriptions !! ws = Some old /\ after = <[ws := new]> subscriptions.

Definition only_sends_to (ws : WebSocket) (effects : list (Effect PriceUpdate Time)) : Prop :=
  forall ws' message, WsSend ws' message ∈ effects -> ws' = ws.

Lemma only_sends_to_app ws (e1 e2 : list (Effect PriceUpdate Time)) :
  only_sends_to ws e1 -> only_sends_to ws e2 -> only_sends_to ws (e1 ++ e2).
Proof.
  intros H1 H2 ws' message Hin.
  apply elem_of_app in Hin as [Hin|Hin]; [eapply H1|eapply H2]; exact Hin.
Qed.

Lemma only_sends_to_sendMessage t ws (message : WebSocketMessage PriceUpdate Time) :
  only_sends_to ws (sendMessage t ws message).
Proof.
  unfold sendMessage. intros ws' message' Hin.
  destruct (bool_decide (readyState t ws = OPEN)).
  - apply list_elem_of_singleton in Hin. congruence.
  - inversion Hin.
Qed.

Lemma only_sends_to_log ws (e : Effect PriceUpdate Time) :
  (forall ws' message, e <> WsSend ws' message) -> only_sends_to ws [e].
Proof.
  intros Hlog ws' message Hin. apply list_elem_of_singleton in Hin.
  exfalso. eapply Hlog. symmetry. exact Hin.
Qed.

Lemma handleSubscribe_concerns_sender t t'
    (engine : string -> string -> Result PriceUpdate) subscriptions ws message :
  only_sender_updated subscriptions
    (handleSubscribe t t' engine subscriptions ws message).1 ws
  /\ only_sends_to ws (handleSubscribe t t' engine subscriptions ws message).2.
Proof.
  unfold handleSubscribe.
  destruct (truthy_field (req_symbol message)) as [symbol|];
    [destruct (truthy_field (req_chain message)) as [chain|]|];
    try (split; [left; reflexivity|apply only_sends_to_sendMessage]).
  destruct (subscriptions !! ws) as [old|] eqn:Hws; cbn [fst snd].
  - split; [right; eauto|].
    repeat apply only_sends_to_app;
      try apply only_sends_to_sendMessage; try (apply only_sends_to_log; discriminate).
    destruct (engine symbol chain);
      [apply only_sends_to_sendMessage | apply only_sends_to_log; discriminate].
  - split; [left; reflexivity|]. intros ws' m Hin. inversion Hin.
Qed.

Lemma handleUnsubscribe_concerns_sender t subscriptions ws message :
  only_sender_updated subscriptions
    (handleUnsubscribe (PriceUpdate := PriceUpdate) t subscriptions ws message).1 ws
  /\ only_sends_to ws
       (handleUnsubscribe (PriceUpdate := PriceUpdate) t subscriptions ws message).2.
Proof.
  unfold handleUnsubscribe.
  destruct (truthy_field (req_symbol message)) as [symbol|];
    [destruct (truthy_field (req_chain message)) as [chain|]|];
    try (split; [left; reflexivity|apply only_sends_to_sendMessage]).
  destruct (subscriptions !! ws) as [old|] eqn:Hws; cbn [fst snd].
  - split; [right; eauto|].
    apply only_sends_to_app;
      [apply only_sends_to_sendMessage | apply only_sends_to_log; discriminate].
  - split; [left; reflexivity|]. intros ws' m Hin. inversion Hin.
Qed.

(** The three ways [handleMessage] can go. *)
Lemma handleMessage_cases t t' (engine : string -> string -> Result PriceUpdate)
    subscriptions ws tag message :
  handleMessage t t' engine subscriptions ws tag message
    = handleSubscribe t t' engine subscriptions ws message
  \/ handleMessage t t' engine subscriptions ws tag message
    = handleUnsubscribe t subscriptions ws message
  \/ handleMessage t t' engine subscriptions ws tag message
    = (subscriptions, sendError t ws ("Unknown message type: " +:+ printed_tag tag)).
Proof.
  unfold handleMessage. destruct tag as [text|printed]; [|auto].
  destruct (String.eqb text "subscribe"); [auto|].
  destruct (String.eqb text "unsubscribe"); auto.
Qed.

(** X12. Whatever message a connection sends, the manager changes no other
    connection's subscriptions, registers and unregisters no connection,
    and sends to no other connection. *)
Theorem handleMessage_concerns_sender_only
    (t t' : Moment Time) (engine : string -> string -> Result PriceUpdate)
    (subscriptions : Subscriptions) (ws : WebSocket)
    (tag : MessageTag) (message : ClientRequest) :
  let outcome := handleMessage t t' engine subscriptions ws tag message in
  (forall other, other <> ws -> outcome.1 !! other = subscriptions !! other)
  /\ dom outcome.1 = dom subscriptions
  /\ (forall other message',
        WsSend other message' ∈ outcome.2 -> other = ws).
Proof.
  intros outcome.
  assert (Hshape : only_sender_updated subscriptions outcome.1 ws
                   /\ only_sends_to ws outcome.2).
  { subst outcome.
    destruct (handleMessage_cases t t' engine subscriptions ws tag message)
      as [->|[->| ->]].
    - apply handleSubscribe_concerns_sender.
    - apply handleUnsubscribe_concerns_sender.
    - split; [left; reflexivity|apply only_sends_to_sendMessage]. }
  destruct Hshape as [[->|(old & new & Hold & ->)] Hsends].
  - repeat split; auto.
  - repeat split; [| |exact Hsends].
    + intros other Hother. apply lookup_insert_ne. congruence.
    + apply dom_insert_lookup_L. rewrite Hold. eauto.
Qed.

(** What a request does to who holds which key: only the sender's holding
    of the requested key can change. *)
Lemma handleSubscribe_other_keys t t' (engine : string -> string -> Result PriceUpdate)
    subscriptions ws (symbol chain : string) id other (key : string) :
  key <> subscriptionKey chain symbol ->
  subscribed (handleSubscribe (Time := Time) t t' engine subscriptions ws
                (request symbol chain id)).1 other key
  = subscribed subscriptions other key.
Proof.
  intros Hkey. unfold handleSubscribe, request. cbn [req_symbol req_chain].
  destruct (truthy_field (Some symbol)) as [symbol'|] eqn:Hs; [|reflexivity].
  destruct (truthy_field (Some chain)) as [chain'|] eqn:Hc; [|reflexivity].
  assert (symbol' = symbol) as ->.
  { simpl in Hs. destruct (truthy symbol); congruence. }
  assert (chain' = chain) as ->.
  { simpl in Hc. destruct (truthy chain); congruence. }
  destruct (subscriptions !! ws) as [old|] eqn:Hws; [|reflexivity].
  cbn [fst]. unfold subscribed.
  destruct (decide (other = ws)) as [->|Hne].
  - rewrite lookup_insert_eq, Hws. apply bool_decide_ext.
    rewrite elem_of_union, elem_of_singleton. tauto.
  - rewrite lookup_insert_ne by congruence. reflexivity.
Qed.

Lemma handleUnsubscribe_other_keys t subscriptions ws (symbol chain : string) id other
    (key : string) :
  key <> subscriptionKey chain symbol ->
  subscribed (handleUnsubscribe (PriceUpdate := PriceUpdate) (Time := Time) t
                subscriptions ws (request symbol chain id)).1 other key
  = subscribed subscriptions other key.
Proof.
  intros Hkey. unfold handleUnsubscribe, request. cbn [req_symbol req_chain].
  destruct (truthy_field (Some symbol)) as [symbol'|] eqn:Hs; [|reflexivity].
  destruct (truthy_field (Some chain)) as [chain'|] eqn:Hc; [|reflexivity].
  assert (symbol' = symbol) as ->.
  { simpl in Hs. destruct (truthy symbol); congruence. }
  assert (chain' = chain) as ->.
  { simpl in Hc. destruct (truthy chain); congruence. }
  destruct (subscriptions !! ws) as [old|] eqn:Hws; [|reflexivity].
  cbn [fst]. unfold subscribed.
  destruct (decide (other = ws)) as [->|Hne].
  - rewrite lookup_insert_eq, Hws. apply bool_decide_ext.
    rewrite elem_of_difference, elem_of_singleton. tauto.
  - rewrite lookup_insert_ne by congruence. reflexivity.
Qed.

(** X13. A message about one key, whatever its type, does not change what
    a later broadcast for another key delivers, to any connection. *)
Theorem handleMessage_leaves_other_keys
    (t t' t2 : Moment Time) (engine : string -> string -> Result PriceUpdate)
    (subscriptions : Subscriptions) (ws : WebSocket) (tag : MessageTag)
    (symbol chain : string) (id : option string)
    (symbol' chain' : string) (priceData : PriceUpdate) (other : WebSocket) :
  subscriptionKey chain' symbol' <> subscriptionKey chain symbol ->
  delivered_to other
    (broadcastPriceUpdate t2
       (handleMessage t t' engine subscriptions ws tag (request symbol chain id)).1
       symbol' chain' priceData)
  = delivered_to other (broadcastPriceUpdate t2 subscriptions symbol' chain' priceData).
Proof.
  intros Hkey. rewrite !broadcast_delivery.
  destruct (handleMessage_cases t t' engine subscriptions ws tag (request symbol chain id))
    as [->|[->| ->]].
  - rewrite handleSubscribe_other_keys by exact Hkey. reflexivity.
  - rewrite handleUnsubscribe_other_keys by exact Hkey. reflexivity.
  - reflexivity.
Qed.

(** X14. Repeating a subscribe request, or an unsubscribe request, leaves
    the registry as the first one left it. *)
Theorem repeated_request_changes_nothing
    (t1 t1' t2 t2' : Moment Time) (engine1 engine2 : string -> string -> Result PriceUpdate)
    (subscriptions : Subscriptions) (ws : WebSocket) (message : ClientRequest) :
  (handleSubscribe t2 t2' engine2
     (handleSubscribe t1 t1' engine1 subscriptions ws message).1 ws message).1
  = (handleSubscribe t1 t1' engine1 subscriptions ws message).1
  /\ (handleUnsubscribe (PriceUpdate := PriceUpdate) t2
        (handleUnsubscribe (PriceUpdate := PriceUpdate) t1 subscriptions ws message).1
        ws message).1
     = (handleUnsubscribe (PriceUpdate := PriceUpdate) t1 subscriptions ws message).1.
Proof.
  unfold handleSubscribe, handleUnsubscribe.
  destruct (truthy_field (req_symbol message)) as [symbol|]; [|split; reflexivity].
  destruct (truthy_field (req_chain message)) as [chain|]; [|split; reflexivity].
  destruct (subscriptions !! ws) as [old|] eqn:Hws; cbn [fst].
  - rewrite !lookup_insert_eq. cbn [fst]. rewrite !insert_insert_eq.
    split; f_equal; apply set_eq; intros key.
    + rewrite !elem_of_union. tauto.
    + rewrite !elem_of_difference. tauto.
  - rewrite Hws. split; reflexivity.
Qed.

(** X15. Unsubscribing from a key right after subscribing to it gives back
    the registry as it was, when the connection did not hold the key. *)
Theorem unsubscribe_undoes_subscribe
    (t1 t1' t2 : Moment Time) (engine : string -> string -> Result PriceUpdate)
    (subscriptions : Subscriptions) (ws : WebSocket) (message : ClientRequest)
    (symbol chain : string) :
  truthy_field (req_symbol message) = Some symbol ->
  truthy_field (req_chain message) = Some chain ->
  subscribed subscriptions ws (subscriptionKey chain symbol) = false ->
  (handleUnsubscribe (PriceUpdate := PriceUpdate) t2
     (handleSubscribe t1 t1' engine subscriptions ws message).1 ws message).1
  = subscriptions.
Proof.
  intros Hs Hc Hfree. unfold handleSubscribe, handleUnsubscribe, subscribed in *.
  rewrite Hs, Hc.
  destruct (subscriptions !! ws) as [old|] eqn:Hws; cbn [fst].
  - rewrite lookup_insert_eq. cbn [fst]. rewrite insert_insert_eq.
    apply bool_decide_eq_false in Hfree.
    apply insert_id. rewrite Hws. f_equal. apply set_eq. intros key.
    rewrite elem_of_difference, elem_of_union, !elem_of_singleton.
    split; [|tauto]. intros Hin. split; [tauto|]. congruence.
  - rewrite Hws. reflexivity.
Qed.

(** Replacing one connection's set changes the count by the two sizes. *)
Lemma getActiveSubscriptions_insert subscriptions ws (old new : gset string) :
  subscriptions !! ws = Some old ->
  getActiveSubscriptions (<[ws := new]> subscriptions) + size old
  = getActiveSubscriptions subscriptions + size new.
Proof.
  intros Hws. unfold getActiveSubscriptions.
  rewrite (map_fold_delete_L _ _ ws old subscriptions) by (intros; lia || exact Hws).
  rewrite <- (insert_delete_eq subscriptions ws new).
  rewrite map_fold_insert_L; [lia|intros; lia|apply lookup_delete_eq].
Qed.

(** X16. [getActiveSubscriptions] follows the requests: a subscribe request
    of a registered connection adds one unless the key was held, an
    unsubscribe request takes one off if it was held, and a closing
    connection takes off all it held. *)
Theorem getActiveSubscriptions_follows_requests
    (t t' : Moment Time) (engine : string -> string -> Result PriceUpdate)
    (subscriptions : Subscriptions) (ws : WebSocket) (symbol chain : string)
    (id : option string) (clientSubscriptions : gset string) :
  truthy symbol = true -> truthy chain = true ->
  subscriptions !! ws = Some clientSubscriptions ->
  let held := subscribed subscriptions ws (subscriptionKey chain symbol) in
  getActiveSubscriptions (handleSubscribe t t' engine subscriptions ws
                            (request symbol chain id)).1
    = getActiveSubscriptions subscriptions + (if held then 0 else 1)
  /\ getActiveSubscriptions (handleUnsubscribe (PriceUpdate := PriceUpdate) t
                               subscriptions ws (request symbol chain id)).1
       + (if held then 1 else 0)
     = getActiveSubscriptions subscriptions
  /\ getActiveSubscriptions (on_close subscriptions ws) + size clientSubscriptions
     = getActiveSubscriptions subscriptions.
Proof.
  intros Hs Hc Hws held.
  rewrite (handleSubscribe_registry t t' engine subscriptions ws symbol chain id
             clientSubscriptions Hs Hc Hws).
  rewrite (handleUnsubscribe_registry t subscriptions ws symbol chain id
             clientSubscriptions Hs Hc Hws).
  pose proof (getActiveSubscriptions_insert subscriptions ws clientSubscriptions
                (clientSubscriptions ∪ {[subscriptionKey chain symbol]}) Hws) as Hadd.
  pose proof (getActiveSubscriptions_insert subscriptions ws clientSubscriptions
                (clientSubscriptions ∖ {[subscriptionKey chain symbol]}) Hws) as Hdel.
  subst held. unfold subscribed. rewrite Hws.
  destruct (bool_decide_reflect (subscriptionKey chain symbol ∈ clientSubscriptions))
    as [Hin|Hout].
  - assert (clientSubscriptions ∪ {[subscriptionKey chain symbol]} = clientSubscriptions)
      as Hsame.
    { apply set_eq. intros key. rewrite elem_of_union, elem_of_singleton.
      split; [intros [?| ->]; assumption|tauto]. }
    rewrite Hsame in *.
    pose proof (size_difference clientSubscriptions {[subscriptionKey chain symbol]})
      as Hsize.
    rewrite size_singleton in Hsize.
    assert (0 < size clientSubscriptions)%nat.
    { destruct (size clientSubscriptions) eqn:Hzero; [|lia].
      apply size_empty_iff in Hzero. rewrite Hzero in Hin. 
      apply elem_of_empty in Hin. contradiction. }
    split; [lia|]. split.
    + specialize (Hsize ltac:(apply singleton_subseteq_l; exact Hin)). lia.
    + unfold on_close, getActiveSubscriptions.
      rewrite (map_fold_delete_L _ _ ws clientSubscriptions subscriptions)
        by (intros; lia || exact Hws). reflexivity.
  - assert (clientSubscriptions ∖ {[subscriptionKey chain symbol]} = clientSubscriptions)
      as Hsame.
    { apply set_eq. intros key. rewrite elem_of_difference, elem_of_singleton.
      split; [tauto|]. intros Hkey. split; [assumption|congruence]. }
    rewrite Hsame in *.
    rewrite size_union in Hadd
      by (apply disjoint_singleton_r; exact Hout).
    rewrite size_singleton in Hadd.
    split; [lia|]. split; [lia|].
    unfold on_close, getActiveSubscriptions.
    rewrite (map_fold_delete_L _ _ ws clientSubscriptions subscriptions)
      by (intros; lia || exact Hws). reflexivity.
Qed.

(** X17. Once a connection has closed, a broadcast delivers nothing to it,
    whatever its socket's state; the other connections receive what they
    would have; and a later subscribe or unsubscribe message from it is
    dropped: nothing is recorded, sent or logged, and the engine's answer
    is not used. *)
Theorem closed_connection_is_forgotten
    (t t' t2 : Moment Time) (engine : string -> string -> Result PriceUpdate)
    (subscriptions : Subscriptions) (ws : WebSocket)
    (symbol chain : string) (id : option string) (priceData : PriceUpdate) :
  truthy symbol = true -> truthy chain = true ->
  let closed := on_close subscriptions ws in
  delivered_to ws (broadcastPriceUpdate t2 closed symbol chain priceData) = []
  /\ (forall other, other <> ws ->
        delivered_to other (broadcastPriceUpdate t2 closed symbol chain priceData)
        = delivered_to other (broadcastPriceUpdate t2 subscriptions symbol chain priceData))
  /\ handleMessage t t' engine closed ws (TagString "subscribe") (request symbol chain id)
     = (closed, [])
  /\ handleMessage t t' engine closed ws (TagString "unsubscribe") (request symbol chain id)
     = (closed, []).
Proof.
  intros Hs Hc closed. subst closed. unfold on_close. repeat split.
  - rewrite broadcast_delivery. unfold subscribed. rewrite lookup_delete_eq. reflexivity.
  - intros other Hother. rewrite !broadcast_delivery. unfold subscribed.
    rewrite lookup_delete_ne by congruence. reflexivity.
  - unfold handleMessage, handleSubscribe, request. cbn [String.eqb Ascii.eqb Bool.eqb].
    cbn [req_symbol req_chain].
    rewrite !truthy_field_Some, lookup_delete_eq by assumption. reflexivity.
  - unfold handleMessage, handleUnsubscribe, request. cbn [String.eqb Ascii.eqb Bool.eqb].
    cbn [req_symbol req_chain].
    rewrite !truthy_field_Some, lookup_delete_eq by assumption. reflexivity.
Qed.

End WebSocketDispatch.

(** ** Subscription keys *)

Module SubscriptionKeys.
Import Stdlib.Strings.Ascii.

(** A chain name with a colon in it. *)
Fixpoint has_colon (text : string) : bool :=
  match text with
  | EmptyString => false
  | String c rest => Ascii.eqb c ":"%char || has_colon rest
  end.

(** X18. Two pairs of a chain and a symbol have the same subscription key
    only if they are the same pair, as long as the chains' names hold no
    colon. *)
Theorem subscriptionKey_separates_pairs (chain symbol chain' symbol' : string) :
  has_colon chain = false -> has_colon chain' = false ->
  subscriptionKey chain symbol = subscriptionKey chain' symbol' ->
  chain = chain' /\ symbol = symbol'.
Proof.
  unfold subscriptionKey.
  revert chain'. induction chain as [|c chain IH]; intros [|c' chain']; simpl.
  - intros _ _ Heq. injection Heq as Heq. auto.
  - intros _ Hfree Heq. injection Heq as Hc _. subst c'.
    simpl in Hfree. discriminate Hfree.
  - intros Hfree _ Heq. injection Heq as Hc _. subst c.
    simpl in Hfree. discriminate Hfree.
  - intros Hfree Hfree' Heq. injection Heq as Hc Heq. subst c'.
    apply orb_false_elim in Hfree as [_ Hfree].
    apply orb_false_elim in Hfree' as [_ Hfree'].
    destruct (IH chain' Hfree Hfree' Heq) as [-> ->]. auto.
Qed.

End SubscriptionKeys.

(** ** The Chainlink adapter's confidence *)

Module ChainlinkService.

(** [calculateConfidence].  [now] is [Math.floor(Date.now() / 1000)]; the
    three arguments are whole numbers of seconds, on which the
    subtraction, the doubling and the comparisons are exact. *)
Definition calculateConfidence (now updatedAt heartbeat : Z) : float :=
  let ageSeconds := (now - updatedAt)%Z in
  if (ageSeconds >? heartbeat * 2)%Z then 0.5%float
  else if (ageSeconds >? heartbeat)%Z then 0.8%float
  else 0.98%float.

(** X19. The confidence [calculateConfidence] gives a round never rises
    with the round's age: of two rounds rated against the same heartbeat,
    the older one gets at most the confidence of the newer one. *)
Theorem calculateConfidence_never_rises_with_age
    (now updatedAt now' updatedAt' heartbeat : Z) :
  (now - updatedAt <= now' - updatedAt')%Z ->
  PrimFloat.leb (calculateConfidence now' updatedAt' heartbeat)
                (calculateConfidence now updatedAt heartbeat) = true.
Proof.
  intros Hage. unfold calculateConfidence.
  destruct (Z.gtb_spec (now - updatedAt) (heartbeat * 2)),
           (Z.gtb_spec (now' - updatedAt') (heartbeat * 2)),
           (Z.gtb_spec (now - updatedAt) heartbeat),
           (Z.gtb_spec (now' - updatedAt') heartbeat);
    try lia; reflexivity.
Qed.

End ChainlinkService.

(** ** The Pyth adapter *)

Module PythService.

(** interface PythFeed *)
Record PythFeed : Type := {
  feed_id : string;
  feed_symbol : string;
  feed_network : string;
  confidence_interval : float;
  asset_type : string
}.

(** [initializeFeeds] *)
Definition initializeFeeds : list PythFeed :=
  [
    {| feed_id := "0xe62df6c8b4a85fe1a67db44dc12de5db330f7ac66b72dc658afedf0f4a415b43";
       feed_symbol := "BTC/USD"; feed_network := "multi";
       confidence_interval := 0.01; asset_type := "crypto" |};
    {| feed_id := "0xff61491a931112ddf1bd8147cd1b641375f79f5825126d665480874634fd0ace";
       feed_symbol := "ETH/USD"; feed_network := "multi";
       confidence_interval := 0.01; asset_type := "crypto" |};
    {| feed_id := "0xef0d8b6fda2ceba41da15d4095d1da392a0d2f8ed0c6c7bc0f4cfac8c280b56d";
       feed_symbol := "SOL/USD"; feed_network := "solana";
       confidence_interval := 0.01; asset_type := "crypto" |};
    {| feed_id := "0x5de33a9112c2b700b8d30b8a3402c103578ccfa2765696471cc672bd5cf6ac52";
       feed_symbol := "MATIC/USD"; feed_network := "polygon";
       confidence_interval := 0.02; asset_type := "crypto" |};
    {| feed_id := "0x23d7315113f5b1d3ba7a83604c44b94d79f4fd69af77f804fc7f920a6dc65744";
       feed_symbol := "SUI/USD"; feed_network := "sui";
       confidence_interval := 0.02; asset_type := "crypto" |};
    {| feed_id := "0x93da3352f9f1d105fdfe4971cfa80e9dd777bfc5d0f683ebb6e1294b92137bb7";
       feed_symbol := "AVAX/USD"; feed_network := "avalanche";
       confidence_interval := 0.02; asset_type := "crypto" |};
    {| feed_id := "0x2f95862b045670cd22bee3114c39763a4a08beeb663b145d283c31d7d1101c4f";
       feed_symbol := "BNB/USD"; feed_network := "bsc";
       confidence_interval := 0.02; asset_type := "crypto" |};
    {| feed_id := "0x2b89b9dc8fdf9f34709a5b106b472f0f39bb6ca9ce04b0fd7f2e971688e2e53b";
       feed_symbol := "USDT/USD"; feed_network := "multi";
       confidence_interval := 0.001; asset_type := "stablecoin" |};
    {| feed_id := "0xeaa020c61cc479712813461ce153894a96a6c00b21ed0cfc2798d1f9a9e9c94a";
       feed_symbol := "USDC/USD"; feed_network := "multi";
       confidence_interval := 0.001; asset_type := "stablecoin" |};
    {| feed_id := "0xb0948a5e5313200c632b51bb5ca32f6de0d36e9950a942d19751e833f70dabfd";
       feed_symbol := "DAI/USD"; feed_network := "multi";
       confidence_interval := 0.001; asset_type := "stablecoin" |};
    {| feed_id := "0x3fa4252848f9f0a1480be62745a4629d9eb1322aebab8a791e344b3b9c1adcf5";
       feed_symbol := "ARB/USD"; feed_network := "arbitrum";
       confidence_interval := 0.03; asset_type := "crypto" |};
    {| feed_id := "0x385f64d993f7b77d8182ed5003d97c60aa3361f3cecfe711544d2d59165e9bdf";
       feed_symbol := "OP/USD"; feed_network := "optimism";
       confidence_interval := 0.03; asset_type := "crypto" |};
    {| feed_id := "0x4b5ab61593a2401b1075b90c04cbcdd3f87ce011498602a88d217758d5a2a77e";
       feed_symbol := "LINK/USD"; feed_network := "multi";
       confidence_interval := 0.02; asset_type := "crypto" |};
    {| feed_id := "0x72b021217ca3fe68922a19aaf990109cb9d84e9ad004b4d2025ad6f529314419";
       feed_symbol := "UNI/USD"; feed_network := "ethereum";
       confidence_interval := 0.02; asset_type := "crypto" |}
  ].

(** What one call of [getPrice] meets: whether the cache client throws on
    a read or on a write (and with what message),
    [parseInt(process.env['CACHE_TTL_PRICE'] || '30', 10)], and the two
    readings of [Date.now()]. *)
Record Runtime : Type := {
  get_throws : option string;
  set_throws : option string;
  ttl : nat;
  now_for_timestamp : float;
  now_for_publishTime : float
}.

(** What the adapter does to the outside: the calls of [Call] and
    [logger.warn]. *)
Inductive Event : Type :=
  | Asked (c : Call)
  | Warned (message : string).

Record ServiceState : Type := {
  store : gmap string string;
  journal : list Event
}.

Definition note (e : Event) (st : ServiceState) : ServiceState :=
  {| store := store st; journal := journal st ++ [e] |}.

Section GetPrice.
(** [JSON.stringify] of a price object and [JSON.parse] of a cached text,
    which is taken to give [null] or a price object. *)
Variable JSON_stringify : PythPriceData (num := float) -> string.
Variable JSON_parse : string -> Result (option (PythPriceData (num := float))).

Definition cacheKey (symbol : string) : string := "pyth:" +:+ symbol.

(** The object [getPrice] builds for a feed. *)
Definition pythPrice (rt : Runtime) (feed : PythFeed) : PythPriceData (num := float) :=
  {| py_symbol := feed_symbol feed;
     py_price := 0%float;                       (* Placeholder *)
     py_confidence := 0.95%float;
     py_timestamp := now_for_timestamp rt;
     py_network := feed_network feed;
     py_source := "pyth";
     py_publishTime := now_for_publishTime rt |}.

(** [getPrice]; [feeds] is [this.feeds]. *)
Definition getPrice (rt : Runtime) (feeds : list PythFeed) (symbol : string)
    (st : ServiceState) : option (PythPriceData (num := float)) * ServiceState :=
  let catch (thrown : Error) (st : ServiceState) :=
    (None, note (Asked (LoggerError ("Failed to get price for " +:+ symbol +:+ ":") thrown)) st) in
  let st := note (Asked (RedisGet (cacheKey symbol))) st in
  match get_throws rt with
  | Some message => catch (Foreign message) st
  | None =>
      match truthy_field (store st !! cacheKey symbol) with
      | Some cached =>
          match JSON_parse cached with
          | Ok value => (value, st)
          | Throw thrown => catch thrown st
          end
      | None =>
          match find (fun f => String.eqb (feed_symbol f) symbol) feeds with
          | None => (None, note (Warned ("Feed not found for " +:+ symbol)) st)
          | Some feed =>
              let value := pythPrice rt feed in
              let st :=
                note (Asked (redis_write (cacheKey symbol) (JSON_stringify value) (ttl rt)))
                  st in
              match set_throws rt with
              | Some message => catch (Foreign message) st
              | None =>
                  (Some value,
                   note (Asked (LoggerDebug ("Retrieved price for " +:+ symbol)))
                     {| store := <[cacheKey symbol := JSON_stringify value]> (store st);
                        journal := journal st |})
              end
          end
      end
  end.

(** The cache holds nothing usable under the symbol's key. *)
Definition cold_cache (st : ServiceState) (symbol : string) : Prop :=
  truthy_field (store st !! cacheKey symbol) = None.

Definition listed (feeds : list PythFeed) (symbol : string) : option PythFeed :=
  find (fun f => String.eqb (feed_symbol f) symbol) feeds.

Lemma listed_symbol feeds symbol feed :
  listed feeds symbol = Some feed -> feed_symbol feed = symbol /\ feed ∈ feeds.
Proof.
  unfold listed. intros Hfind. apply find_some in Hfind as [Hin Heq].
  split; [apply String.eqb_eq, Heq|apply list_elem_of_In, Hin].
Qed.

(** What a call on a cold cache comes to when everything works. *)
Lemma getPrice_cold_run rt feeds symbol st feed :
  get_throws rt = None -> set_throws rt = None -> cold_cache st symbol ->
  listed feeds symbol = Some feed ->
  getPrice rt feeds symbol st =
    (Some (pythPrice rt feed),
     {| store := <[cacheKey symbol := JSON_stringify (pythPrice rt feed)]> (store st);
        journal := journal st
          ++ [Asked (RedisGet (cacheKey symbol));
              Asked (redis_write (cacheKey symbol) (JSON_stringify (pythPrice rt feed)) (ttl rt));
              Asked (LoggerDebug ("Retrieved price for " +:+ symbol))] |}).
Proof.
  unfold cold_cache, listed, getPrice. intros Hget Hset Hcold Hfeed.
  rewrite Hget. cbn [note store journal]. rewrite Hcold, Hfeed, Hset.
  unfold note. cbn [store journal]. rewrite <- !app_assoc. reflexivity.
Qed.

(** X20. On a cold cache, for a listed symbol and with the cache client
    working, [getPrice] answers with the placeholder: price 0 at
    confidence 0.95, under the requested symbol and the feed's network,
    whatever the feed; and it stores the answer under the key
    `pyth:${symbol}`, touching no other key. *)
Theorem getPrice_answers_with_placeholder
    (rt : Runtime) (feeds : list PythFeed) (symbol : string) (st : ServiceState)
    (feed : PythFeed) :
  get_throws rt = None -> set_throws rt = None -> cold_cache st symbol ->
  listed feeds symbol = Some feed ->
  exists value,
    (getPrice rt feeds symbol st).1 = Some value
    /\ py_price value = 0%float /\ py_confidence value = 0.95%float
    /\ py_symbol value = symbol /\ py_network value = feed_network feed
    /\ py_source value = "pyth"
    /\ store (getPrice rt feeds symbol st).2 !! cacheKey symbol
       = Some (JSON_stringify value)
    /\ (forall key, key <> cacheKey symbol ->
          store (getPrice rt feeds symbol st).2 !! key = store st !! key).
Proof.
  intros Hget Hset Hcold Hfeed.
  rewrite (getPrice_cold_run rt feeds symbol st feed Hget Hset Hcold Hfeed).
  exists (pythPrice rt feed). cbn [fst snd store].
  repeat split.
  - apply (listed_symbol feeds symbol feed Hfeed).
  - apply lookup_insert_eq.
  - intros key Hkey. apply lookup_insert_ne. congruence.
Qed.

(** X21. On a cold cache [getPrice] answers [null] exactly when the cache
    client throws on the read, the symbol is not listed, or the cache
    client throws on the write; and whenever it answers [null] the cache
    is left as it was. *)
Theorem getPrice_null_on_cold_cache
    (rt : Runtime) (feeds : list PythFeed) (symbol : string) (st : ServiceState) :
  cold_cache st symbol ->
  ((getPrice rt feeds symbol st).1 = None
     <-> get_throws rt <> None \/ listed feeds symbol = None \/ set_throws rt <> None)
  /\ ((getPrice rt feeds symbol st).1 = None ->
      store (getPrice rt feeds symbol st).2 = store st).
Proof.
  unfold cold_cache, listed, getPrice. intros Hcold.
  destruct (get_throws rt) as [message|] eqn:Hget.
  { split; [split; [left; discriminate|reflexivity]|reflexivity]. }
  cbn [note store journal]. rewrite Hcold.
  destruct (find _ feeds) as [feed|] eqn:Hfeed.
  - destruct (set_throws rt) as [message|] eqn:Hset.
    + split; [split; [right; right; discriminate|reflexivity]|reflexivity].
    + cbn [fst snd]. split; [|discriminate].
      split; [discriminate|]. intros [Hc|[Hc|Hc]]; congruence.
  - split; [split; [right; left; reflexivity|reflexivity]|reflexivity].
Qed.

(** X22. An answer [getPrice] computed on a cold cache is what the next
    call for the same symbol returns, as long as the entry is there and
    given that [JSON.parse] inverts [JSON.stringify] on it: the second call
    only reads the cache, whatever the feeds and the clock are by then, so
    its answer carries the first call's timestamp. *)
Theorem getPrice_served_from_cache_afterwards
    (rt rt' : Runtime) (feeds feeds' : list PythFeed) (symbol : string)
    (st : ServiceState) (value : PythPriceData (num := float)) :
  get_throws rt = None -> set_throws rt = None -> cold_cache st symbol ->
  (getPrice rt feeds symbol st).1 = Some value ->
  truthy (JSON_stringify value) = true ->
  JSON_parse (JSON_stringify value) = Ok (Some value) ->
  get_throws rt' = None ->
  let st1 := (getPrice rt feeds symbol st).2 in
  getPrice rt' feeds' symbol st1
    = (Some value, note (Asked (RedisGet (cacheKey symbol))) st1)
  /\ py_timestamp value = now_for_timestamp rt.
Proof.
  intros Hget Hset Hcold Hvalue Htruthy Hround Hget' st1. subst st1.
  destruct (listed feeds symbol) as [feed|] eqn:Hfeed.
  - rewrite (getPrice_cold_run rt feeds symbol st feed Hget Hset Hcold Hfeed) in Hvalue |- *.
    cbn [fst snd] in Hvalue |- *. injection Hvalue as <-.
    split; [|reflexivity].
    unfold getPrice at 1. rewrite Hget'. cbn [note store journal].
    rewrite lookup_insert_eq. cbn [truthy_field]. rewrite Htruthy, Hround.
    reflexivity.
  - exfalso. revert Hvalue. unfold getPrice, listed, cold_cache in *.
    rewrite Hget. cbn [note store journal]. rewrite Hcold, Hfeed. discriminate.
Qed.

End GetPrice.

End PythService.

(** ** The engine on top of the Pyth adapter *)

Section EngineOnPyth.
Import Binary64.
Variable JSON_stringify : UnifiedPriceData (num := float) -> string.
Variable JSON_parse : string -> Result (UnifiedPriceData (num := float)).
Variable calculateFreshness : float -> list (PriceSource float) -> string.
Variable pyth_stringify : PythPriceData (num := float) -> string.
Variable pyth_parse : string -> Result (option (PythPriceData (num := float))).

(** X23. When the Chainlink adapter has no usable answer and the Pyth
    adapter answers as [PythService.getPrice] does on a cold cache for a
    listed pair, the engine's unified price is the placeholder 0, at
    confidence 0.95, with "pyth" as its only source. *)
Theorem getUnifiedPrice_is_placeholder_without_chainlink
    (w : World) (symbol chain : string) (st : EngineState)
    (rt : PythService.Runtime) (feeds : list PythService.PythFeed)
    (service : PythService.ServiceState) (feed : PythService.PythFeed) :
  redis_get_error w = None -> redis_set_error w = None ->
  cache_miss st symbol chain ->
  usable (chainlink_getPrice w chain (symbol +:+ "/USD")) = false ->
  pyth_getPrice w (symbol +:+ "/USD")
    = Fulfilled (PythService.getPrice pyth_stringify pyth_parse rt feeds
                   (symbol +:+ "/USD") service).1 ->
  PythService.get_throws rt = None -> PythService.set_throws rt = None ->
  PythService.cold_cache service (symbol +:+ "/USD") ->
  PythService.listed feeds (symbol +:+ "/USD") = Some feed ->
  exists unified,
    (getUnifiedPrice JSON_stringify JSON_parse calculateFreshness w symbol chain st).1
      = Ok unified
    /\ u_price unified = 0%float
    /\ u_confidence unified = 0.95%float
    /\ u_sources unified = ["pyth"].
Proof.
  intros Hget Hset Hmiss Hchainlink Hpyth Hsget Hsset Hcold Hfeed.
  rewrite (PythService.getPrice_cold_run pyth_stringify pyth_parse rt feeds _ service feed
             Hsget Hsset Hcold Hfeed) in Hpyth.
  cbn [fst] in Hpyth.
  assert (Hobs : observations w symbol chain
                 = [pyth_source w (PythService.pythPrice rt feed)]).
  { unfold observations. rewrite Hpyth.
    destruct (chainlink_getPrice w chain _) as [[?|]|?]; [discriminate Hchainlink| |];
      reflexivity. }
  destruct (getUnifiedPrice_miss_run JSON_stringify JSON_parse calculateFreshness
              w symbol chain st Hget Hmiss)
    as [(Hempty & _)|(_ & weightedPrice & Hwp & Hrun)].
  { rewrite Hobs in Hempty. discriminate Hempty. }
  cbv zeta in Hrun. rewrite Hset in Hrun. rewrite Hrun. cbn [fst].
  eexists. split; [reflexivity|].
  rewrite Hobs in Hwp |- *. cbn in Hwp. injection Hwp as <-.
  cbn. repeat split.
Qed.

End EngineOnPyth.

(** ** The batch endpoint *)

Module PriceController.



Section GetBatchPrices.
(** [Request] is an element of [batchRequest.requests] that is not [null]
    or [undefined]; [Value] is what a fulfilled [getUnifiedPrice] gives,
    which is what [JSON.parse] made of a cached text on a cache hit, and
    [Boolean] says which values are truthy. *)
Context {Request Value : Type}.
Variable Boolean : Value -> bool.











End GetBatchPrices.

End PriceController.

(** ** The adapters, the dispatch and the request path at concrete inputs *)

Module EngineExamples.
Import Binary64 Binary64Facts.

Definition chainlink_at_100 : PriceSource float :=
  observation "chainlink" 100%float 0.90%float 1000000%float.
Definition pyth_at_101_5 : PriceSource float :=
  observation "pyth" 101.5%float 0.95%float 1000000%float.

Definition buy_at_chainlink : ArbitrageOpportunity float :=
  {| buy_source := "chainlink";
     sell_source := "pyth";
     spread_percentage := 1.4888337468982631%float;
     profit_potential := 1.5%float;
     arb_confidence := 0.90%float |}.

Lemma detectArbitrage_opportunity_origin_witness :
  buy_at_chainlink ∈ detectArbitrage [chainlink_at_100; pyth_at_101_5]
  /\ JS.lt thresholdPct (spread_percentage buy_at_chainlink) = true
  /\ exists a b, buy_at_chainlink = opportunity a b.
Proof.
  assert (Hin : buy_at_chainlink ∈ detectArbitrage [chainlink_at_100; pyth_at_101_5]).
  { vm_compute. constructor. }
  destruct (detectArbitrage_opportunity_origin [chainlink_at_100; pyth_at_101_5]
              buy_at_chainlink Hin)
    as (Hspread & i & j & a & b & _ & _ & _ & Horigin & _).
  split; [exact Hin|]. split; [exact Hspread|]. exists a, b. exact Horigin.
Defined.

Lemma detectArbitrage_agreeing_sources_witness :
  detectArbitrage [pyth_100; chainlink_100] = [].
Proof.
  apply (detectArbitrage_agreeing_sources (H0 := Binary64Order.spread_order)).
  assert (Hprice : forall x, x ∈ [pyth_100; chainlink_100] -> price x = 100%float).
  { intros x Hx.
    repeat (apply elem_of_cons in Hx as [->|Hx]); [reflexivity|reflexivity|inversion Hx]. }
  intros a b Ha Hb. rewrite (Hprice a Ha), (Hprice b Hb). reflexivity.
Defined.

(** A cache that holds a text under the request's key. *)
Definition warm : EngineState :=
  {| redis_store := {[ cacheKey "ETH" "ethereum" := "cached" ]}; calls := [] |}.

Lemma getUnifiedPrice_cache_hit_witness :
  getUnifiedPrice stringify parse freshness chainlink_down "ETH" "ethereum" warm
  = (Throw (Foreign "SyntaxError"),
     with_calls warm
       [RedisGet (cacheKey "ETH" "ethereum");
        LoggerDebug (cache_hit_message "ETH" "ethereum");
        LoggerError (failure_message "ETH" "ethereum") (Foreign "SyntaxError")]).
Proof.
  assert (Hheld : redis_store warm !! cacheKey "ETH" "ethereum" = Some "cached").
  { apply lookup_singleton_eq. }
  exact (getUnifiedPrice_cache_hit stringify parse freshness chainlink_down
           "ETH" "ethereum" warm "cached" eq_refl Hheld eq_refl).
Defined.




Lemma getUnifiedPrice_uses_own_key_only_witness :
  redis_store
    (getUnifiedPrice stringify parse freshness chainlink_down "ETH" "ethereum" cold).2
    !! "unified:ethereum:BTC" = None.
Proof.
  assert (Hother : "unified:ethereum:BTC" <> cacheKey "ETH" "ethereum") by discriminate.
  rewrite (proj1 (getUnifiedPrice_uses_own_key_only stringify parse freshness
                    chainlink_down "ETH" "ethereum" cold "unified:ethereum:BTC" Hother)).
  reflexivity.
Defined.

Lemma getUnifiedPrice_result_shape_witness :
  exists unified,
    (getUnifiedPrice stringify parse freshness chainlink_down "ETH" "ethereum" cold).1
      = Ok unified
    /\ u_symbol unified = "ETH" /\ u_chain unified = "ethereum"
    /\ u_source_count unified = length (u_sources unified)
    /\ u_price_deviation unified = 0%float.
Proof.
  destruct (getUnifiedPrice stringify parse freshness chainlink_down "ETH" "ethereum" cold).1
    as [unified|thrown] eqn:Hrun; [|discriminate Hrun].
  destruct (getUnifiedPrice_result_shape stringify parse freshness chainlink_down
              "ETH" "ethereum" cold unified eq_refl I Hrun)
    as (Hsymbol & Hchain & Hcount & _ & _ & Hone).
  exists unified. split; [reflexivity|]. split; [exact Hsymbol|]. split; [exact Hchain|].
  split; [exact Hcount|].
  apply Hone. injection Hrun as <-. reflexivity.
Defined.

End EngineExamples.

Module ExactConsensusExamples.
Import Exact ExactFacts ExactExamples ExactConsensus.
Local Open Scope Q_scope.






End ExactConsensusExamples.

Module DispatchExamples.
Import WebSocketExamples.

Lemma handleMessage_leaves_other_keys_witness :
  delivered_to 2
    (broadcastPriceUpdate (at_time 20 [1; 2])
       (handleMessage (at_time 10 [1; 2]) (at_time 11 [1; 2]) engine connected 1
          (TagString "subscribe") (request "ETH" "eth" None)).1
       "MATIC" "polygon" "MATIC at 1")
  = delivered_to 2
      (broadcastPriceUpdate (at_time 20 [1; 2]) connected "MATIC" "polygon" "MATIC at 1").
Proof.
  apply handleMessage_leaves_other_keys. discriminate.
Defined.

Lemma unsubscribe_undoes_subscribe_witness :
  (handleUnsubscribe (PriceUpdate := string) (at_time 12 [1])
     (handleSubscribe (at_time 10 [1]) (at_time 11 [1]) engine connected 1
        (request "ETH" "eth" None)).1 1 (request "ETH" "eth" None)).1
  = connected.
Proof.
  apply (unsubscribe_undoes_subscribe (at_time 10 [1]) (at_time 11 [1]) (at_time 12 [1])
           engine connected 1 (request "ETH" "eth" None) "ETH" "eth");
    reflexivity.
Defined.

Lemma getActiveSubscriptions_follows_requests_witness :
  getActiveSubscriptions
    (handleSubscribe (at_time 10 [1]) (at_time 11 [1]) engine connected 1
       (request "ETH" "eth" None)).1
  = getActiveSubscriptions connected + 1.
Proof.
  assert (Hws : connected !! 1 = Some (∅ : gset string)) by reflexivity.
  exact (proj1 (getActiveSubscriptions_follows_requests (at_time 10 [1]) (at_time 11 [1])
                  engine connected 1 "ETH" "eth" None ∅ eq_refl eq_refl Hws)).
Defined.

Lemma closed_connection_is_forgotten_witness :
  delivered_to 1
    (broadcastPriceUpdate (at_time 20 [1; 2]) (on_close connected 1)
       "ETH" "eth" "ETH at 2001") = []
  /\ handleMessage (at_time 10 [1; 2]) (at_time 11 [1; 2]) engine (on_close connected 1) 1
       (TagString "subscribe") (request "ETH" "eth" None)
     = (on_close connected 1, []).
Proof.
  destruct (closed_connection_is_forgotten (at_time 10 [1; 2]) (at_time 11 [1; 2])
              (at_time 20 [1; 2]) engine connected 1 "ETH" "eth" None "ETH at 2001"
              eq_refl eq_refl)
    as (Hnothing & _ & Hdropped & _).
  split; [exact Hnothing|exact Hdropped].
Defined.

Lemma subscriptionKey_separates_pairs_witness :
  subscriptionKey "eth" "ETH" = subscriptionKey "eth" "ETH"
  /\ "eth" = "eth" /\ "ETH" = "ETH".
Proof.
  split; [reflexivity|].
  exact (SubscriptionKeys.subscriptionKey_separates_pairs "eth" "ETH" "eth" "ETH"
           eq_refl eq_refl eq_refl).
Defined.

End DispatchExamples.

Module ServiceExamples.
Import Binary64 Binary64Facts.

Lemma calculateConfidence_never_rises_with_age_witness :
  PrimFloat.leb (ChainlinkService.calculateConfidence 10000 1000 3600)
                (ChainlinkService.calculateConfidence 10000 9000 3600) = true.
Proof.
  apply ChainlinkService.calculateConfidence_never_rises_with_age. lia.
Defined.

Definition pyth_stringify (value : PythPriceData (num := float)) : string :=
  py_symbol value.
Definition pyth_parse (text : string) : Result (option (PythPriceData (num := float))) :=
  Throw (Foreign "SyntaxError").

Definition healthy : PythService.Runtime :=
  {| PythService.get_throws := None;
     PythService.set_throws := None;
     PythService.ttl := 30;
     PythService.now_for_timestamp := 1000000%float;
     PythService.now_for_publishTime := 1000000%float |}.

Definition read_only : PythService.Runtime :=
  {| PythService.get_throws := None;
     PythService.set_throws := Some "READONLY";
     PythService.ttl := 30;
     PythService.now_for_timestamp := 1000000%float;
     PythService.now_for_publishTime := 1000000%float |}.

Definition empty_cache : PythService.ServiceState :=
  {| PythService.store := ∅; PythService.journal := [] |}.

Definition ETH_feed : PythService.PythFeed :=
  {| PythService.feed_id :=
       "0xff61491a931112ddf1bd8147cd1b641375f79f5825126d665480874634fd0ace";
     PythService.feed_symbol := "ETH/USD";
     PythService.feed_network := "multi";
     PythService.confidence_interval := 0.01%float;
     PythService.asset_type := "crypto" |}.

Lemma getPrice_answers_with_placeholder_witness :
  exists value,
    (PythService.getPrice pyth_stringify pyth_parse healthy PythService.initializeFeeds
       "ETH/USD" empty_cache).1 = Some value
    /\ py_price value = 0%float /\ py_confidence value = 0.95%float
    /\ py_network value = "multi".
Proof.
  destruct (PythService.getPrice_answers_with_placeholder pyth_stringify pyth_parse
              healthy PythService.initializeFeeds "ETH/USD" empty_cache ETH_feed
              eq_refl eq_refl eq_refl eq_refl)
    as (value & Hvalue & Hprice & Hconfidence & _ & Hnetwork & _).
  exists value. split; [exact Hvalue|]. split; [exact Hprice|].
  split; [exact Hconfidence|exact Hnetwork].
Defined.

Lemma getPrice_null_on_cold_cache_witness :
  (PythService.getPrice pyth_stringify pyth_parse read_only PythService.initializeFeeds
     "ETH/USD" empty_cache).1 = None
  /\ (PythService.getPrice pyth_stringify pyth_parse healthy PythService.initializeFeeds
        "DOGE/USD" empty_cache).1 = None.
Proof.
  split.
  - apply (proj1 (PythService.getPrice_null_on_cold_cache pyth_stringify pyth_parse
                    read_only PythService.initializeFeeds "ETH/USD" empty_cache eq_refl)).
    right. right. discriminate.
  - apply (proj1 (PythService.getPrice_null_on_cold_cache pyth_stringify pyth_parse
                    healthy PythService.initializeFeeds "DOGE/USD" empty_cache eq_refl)).
    right. left. reflexivity.
Defined.

(** A [JSON.parse] that gives back what was stored for ETH/USD. *)
Definition pyth_parse_back (text : string)
  : Result (option (PythPriceData (num := float))) :=
  Ok (PythService.getPrice pyth_stringify pyth_parse healthy PythService.initializeFeeds
        "ETH/USD" empty_cache).1.

Lemma getPrice_served_from_cache_afterwards_witness :
  exists value,
    (PythService.getPrice pyth_stringify pyth_parse_back read_only []
       "ETH/USD"
       (PythService.getPrice pyth_stringify pyth_parse_back healthy
          PythService.initializeFeeds "ETH/USD" empty_cache).2).1 = Some value
    /\ py_timestamp value = 1000000%float.
Proof.
  exists (PythService.pythPrice healthy ETH_feed).
  destruct (PythService.getPrice_served_from_cache_afterwards pyth_stringify
              pyth_parse_back healthy read_only PythService.initializeFeeds []
              "ETH/USD" empty_cache (PythService.pythPrice healthy ETH_feed)
              eq_refl eq_refl eq_refl eq_refl eq_refl eq_refl eq_refl)
    as [Hserved Htimestamp].
  split; [rewrite Hserved; reflexivity|exact Htimestamp].
Defined.

(** A world whose Pyth adapter is the adapter above, on an empty cache. *)
Definition pyth_only : World (num := float) :=
  {| redis_get_error := None;
     redis_set_error := None;
     chainlink_getPrice := fun _ _ => Fulfilled None;
     pyth_getPrice := fun pair =>
       Fulfilled (PythService.getPrice pyth_stringify pyth_parse healthy
                    PythService.initializeFeeds pair empty_cache).1;
     CACHE_TTL_PRICE := 30;
     clock := at_1000000 |}.

Lemma getUnifiedPrice_is_placeholder_without_chainlink_witness :
  exists unified,
    (getUnifiedPrice stringify parse freshness pyth_only "ETH" "ethereum" cold).1
      = Ok unified
    /\ u_price unified = 0%float
    /\ u_confidence unified = 0.95%float
    /\ u_sources unified = ["pyth"].
Proof.
  exact (getUnifiedPrice_is_placeholder_without_chainlink stringify parse freshness
           pyth_stringify pyth_parse pyth_only "ETH" "ethereum" cold
           healthy PythService.initializeFeeds empty_cache ETH_feed
           eq_refl eq_refl I eq_refl eq_refl eq_refl eq_refl eq_refl eq_refl).
Defined.

End ServiceExamples.
